(** * search_planet.py: the result refinement of [search] and the argument
    checks of the command line, embedded and verified.

    The embedding follows [src/search_planet.py] line by line from the point
    where the catalog client has answered (line 68 on): the containment
    filter, the sort by acquisition date, the removal of near duplicates.
    Whatever the source delegates to a library it does not contain
    (shapely's [shape] and [contains], dateutil's [parse]) is an interface
    the embedding is parametric in. *)

From Stdlib Require Import ZArith QArith Lqa Lia.
From stdpp Require Import base numbers list sorting strings gmap.

Set Default Proof Using "Type*".

(** * Part I: the program *)

(** ** Exceptions and the error monad *)

(** The exceptions the modelled lines can raise, named after the Python
    exception (or the library routine) that raises them. *)
Inductive exn : Type :=
  | KeyError (key : string)  (* [x[key]] on a dict without that key *)
  | ShapeError               (* [shapely.geometry.shape] on a non-geometry *)
  | ParserError              (* [dateutil.parser.parse] on a non-date *)
  | TypeError                (* naive and aware datetimes compared or subtracted *)
  | IndexError               (* list index out of range *)
  | OverflowError.           (* datetime arithmetic: date value out of range *)

(** The specification's data error, "kind: MalformedRecord": the exceptions
    a record without a well-formed geometry or a parseable date raises. *)
Definition MalformedRecord (e : exn) : Prop :=
  match e with
  | KeyError _ | ShapeError | ParserError => True
  | TypeError | IndexError | OverflowError => False
  end.

#[global] Instance exn_eq_dec : EqDecision exn.
Proof. solve_decision. Defined.

Definition result (A : Type) : Type := (exn + A)%type.

Definition raise {A : Type} (e : exn) : result A := inl e.

#[global] Instance result_ret : MRet result := λ A x, inr x.
#[global] Instance result_bind : MBind result := λ A B f m,
  match m with
  | inl e => inl e
  | inr x => f x
  end.

(** [[f(x) for x in xs]]: the comprehension stops at the first exception. *)
Fixpoint for_each {A B : Type} (f : A → result B) (xs : list A) : result (list B) :=
  match xs with
  | [] => mret []
  | x :: xs' => y ← f x; ys ← for_each f xs'; mret (y :: ys)
  end.

(** [d[key]] on a dict whose entry for [key] is [field]. *)
Definition getitem {A : Type} (key : string) (field : option A) : result A :=
  match field with
  | Some v => mret v
  | None => raise (KeyError key)
  end.

(** [xs[i]] on a list. *)
Definition index {A : Type} (xs : list A) (i : nat) : result A :=
  match xs !! i with
  | Some x => mret x
  | None => raise IndexError
  end.

(** ** [datetime] and [timedelta] *)

(** A [datetime.datetime] is a count of microseconds (from the epoch in UTC
    when the object is timezone aware, on the wall clock when it is naive)
    and the flag that tells the two apart.  An aware datetime is taken in
    UTC, as [dateutil] reads the timestamps of the catalog (they end in Z):
    there the wall clock and UTC agree. *)
Record datetime : Type := DateTime { ticks : Z; aware : bool }.

(** The range of Python's type: [datetime.min] is 0001-01-01T00:00:00, which
    is 719162 days before the epoch, and [datetime.max] is
    9999-12-31T23:59:59.999999, the last microsecond of the 2932897 days
    from the epoch on. *)
Definition datetime_min : Z := (- 719162 * 86400 * 1000000)%Z.
Definition datetime_max : Z := (2932897 * 86400 * 1000000 - 1)%Z.

#[global] Instance datetime_eq_dec : EqDecision datetime.
Proof. solve_decision. Defined.

(** A [datetime.timedelta], in microseconds. *)
Definition timedelta : Type := Z.

Definition timedelta_seconds (s : Z) : timedelta := (s * 1000000)%Z.
Definition timedelta_days (d : Z) : timedelta := (d * 86400 * 1000000)%Z.

(** [a - b] on two datetimes: a [TypeError] when one is naive and the other
    aware. *)
Definition datetime_diff (a b : datetime) : result timedelta :=
  if Bool.eqb (aware a) (aware b) then mret (ticks a - ticks b)%Z
  else raise TypeError.

(** [a - d] for a timedelta [d]: the same kind of datetime, [d] earlier on
    the clock, and an [OverflowError] ("date value out of range") when that
    is outside the range of the type. *)
Definition datetime_minus (a : datetime) (d : timedelta) : result datetime :=
  let t := (ticks a - d)%Z in
  if bool_decide (datetime_min ≤ t ≤ datetime_max)%Z
  then mret (DateTime t (aware a))
  else raise OverflowError.

(** ** [sorted(..., key=...)] and [list.sort]: a stable sort *)

Section stable_sort.
Context {A : Type} (key : A → Z).

(** [x] stood before every element of [l] in the input: it passes the
    elements whose key is strictly smaller and stops at the first other. *)
Fixpoint insert_by (x : A) (l : list A) : list A :=
  match l with
  | [] => [x]
  | y :: l' => if (key y <? key x)%Z then y :: insert_by x l' else x :: l
  end.

Definition sorted_by (l : list A) : list A := foldr insert_by [] l.

Definition ascending (l : list A) : Prop :=
  StronglySorted (λ a b, (key a ≤ key b)%Z) l.

End stable_sort.

(** The comparisons a sort of [ds] makes are all between datetimes of one
    kind.  A comparison sort has compared, directly or through a chain, every
    two elements of a list of two or more, so Python's sort raises
    [TypeError] exactly when the list mixes naive and aware datetimes. *)
Definition comparable (ds : list datetime) : bool :=
  match ds with
  | [] => true
  | d :: ds' => forallb (λ d', Bool.eqb (aware d') (aware d)) ds'
  end.

(** [sorted(l, key=key)] for a key that is a datetime. *)
Definition sorted {A : Type} (key : A → datetime) (l : list A) : result (list A) :=
  if comparable (key <$> l) then mret (sorted_by (λ a, ticks (key a)) l)
  else raise TypeError.

(** ** shapely *)

(** A point of the plane. *)
Definition point : Type := (Q * Q)%type.

(** What the source uses of shapely: [shapely.geometry.shape], from a GeoJSON
    value to a geometry ([None] when it raises), and [a.contains(b)].  Every
    geometry has its interior and its boundary, two sets of points; the rest
    of the plane is its exterior. *)
Class Shapely (geojson G : Type) : Type := {
  shape : geojson → option G;
  contains : G → G → bool;
  interior : G → point → Prop;
  boundary : G → point → Prop
}.

Section de9im.
Context {geojson G : Type} `{!Shapely geojson G}.

Definition within (a : G) (p : point) : Prop := interior a p ∨ boundary a p.
Definition exterior (a : G) (p : point) : Prop := ¬ within a p.

(** shapely's manual on [object.contains(other)]: "Returns True if no points
    of other lie in the exterior of the object and at least one point of the
    interior of other lies in the interior of object." *)
Definition Contains (a b : G) : Prop :=
  (∀ p, within b p → ¬ exterior a p) ∧ (∃ p, interior b p ∧ interior a p).

(** The containment the specification words: "every point of the AOI lies
    within or on the boundary of the scene footprint". *)
Definition Covers (a b : G) : Prop := ∀ p, within b p → within a p.

End de9im.

(** [contains] computes what the manual says. *)
Class ShapelyContains (geojson G : Type) `{!Shapely geojson G} : Prop :=
  contains_spec : ∀ a b : G, contains a b = true ↔ Contains a b.

(** ** Scene records *)

Section scene.
Context {geojson payload : Type}.

(** The dict the catalog returns for one scene: [x['geometry']],
    [x['properties']['acquired']] (each [None] when the key is missing) and
    everything else it carries. *)
Record scene : Type := Scene {
  geometry : option geojson;
  acquired : option string;
  others : payload
}.

(** A Python object: the dict and its identity. *)
Record item : Type := Item { oid : nat; dict : scene }.

End scene.

Arguments scene : clear implicits.
Arguments item : clear implicits.

Section search.
Context {geojson G : Type} `{!Shapely geojson G} `{!EqDecision geojson}.
Context {payload : Type} `{!EqDecision payload}.
(** [dateutil.parser.parse], [None] when it raises. *)
Context (parse : string → option datetime).

#[local] Abbreviation scene := (scene geojson payload).
#[local] Abbreviation item := (item geojson payload).

#[global] Instance scene_eq_dec : EqDecision scene.
Proof. solve_decision. Defined.

(** [m == r] on two dicts.  [r in l] tests [m is r or m == r] on each element
    [m] of [l]; a dict equals itself, so the identity test adds nothing. *)
Definition same (m r : item) : bool := bool_decide (dict m = dict r).

(** [r in l] *)
Definition py_in (r : item) (l : list item) : bool := existsb (λ m, same m r) l.

(** [shapely.geometry.shape(j)] *)
Definition shape_of (j : geojson) : result G :=
  match shape j with
  | Some g => mret g
  | None => raise ShapeError
  end.

(** [shapely.geometry.shape(x['geometry'])] *)
Definition footprint (x : item) : result G :=
  j ← getitem "geometry" (geometry (dict x)); shape_of j.

(** [dateutil.parser.parse(x['properties']['acquired'])] *)
Definition acquired_date (x : item) : result datetime :=
  s ← getitem "acquired" (acquired (dict x));
  match parse s with
  | Some d => mret d
  | None => raise ParserError
  end.

(** Lines 69 to 72: the loop that keeps the items whose footprint contains
    the AOI. *)
Fixpoint containing (aoi : G) (response : list item) : result (list item) :=
  match response with
  | [] => mret []
  | x :: rest =>
      g ← footprint x;
      results ← containing aoi rest;
      mret (if contains g aoi then x :: results else results)
  end.

(** Lines 81 to 83, from index [i] on: [pairs] is what is left of
    [list(zip(dates, results))[:-1]]. *)
Fixpoint mark_from (dates : list datetime) (i : nat)
    (pairs : list (datetime * item)) : result (list item) :=
  match pairs with
  | [] => mret []
  | (d, r) :: rest =>
      d' ← index dates (S i);
      gap ← datetime_diff d' d;
      marked ← mark_from dates (S i) rest;
      mret (if (gap <? timedelta_seconds 300)%Z then r :: marked else marked)
  end.

(** Lines 80 to 83: the list [to_remove]. *)
Definition to_remove (dates : list datetime) (results : list item) : result (list item) :=
  mark_from dates 0 (removelast (zip dates results)).

(** Lines 74 to 77, "sort results by acquisition date": the sorted dates and
    the results in the order of their dates. *)
Definition sort_by_date (results : list item) : result (list datetime * list item) :=
  dates ← for_each acquired_date results;
  pairs ← sorted fst (zip dates results);
  let results := pairs.*2 in
  dates ← sorted id dates;
  mret (dates, results).

(** Lines 79 to 85, "remove duplicates". *)
Definition remove_duplicates (dates : list datetime) (results : list item)
    : result (list item) :=
  marked ← to_remove dates results;
  mret (filter (λ r, ¬ py_in r marked) results).

(** Lines 67 to 85 of [search]: [response] is what
    [response.items_iter(limit=None)] yields. *)
Definition search (aoi : geojson) (response : list item) : result (list item) :=
  aoi ← shape_of aoi;
  results ← containing aoi response;
  sorted_results ← sort_by_date results;
  remove_duplicates sorted_results.1 sorted_results.2.

End search.

(** ** The steps of [search], read as plain functions

    These are not in the source: they say, without the error monad, what
    each step computes once it raises nothing, and the facts of Part II
    relate them to the steps above. *)

(** Datetimes of one kind: all naive or all aware. *)
Definition uniform (ds : list datetime) : Prop :=
  ∀ d d', d ∈ ds → d' ∈ ds → aware d = aware d'.

Section readings.
Context {geojson G : Type} `{!Shapely geojson G} `{!EqDecision geojson}.
Context {payload : Type} `{!EqDecision payload}.

#[local] Abbreviation item := (item geojson payload).

(** What the loop of lines 69 to 72 decides on one item. *)
Definition kept (aoi : G) (x : item) : bool :=
  match footprint x with
  | inr g => contains g aoi
  | inl _ => false
  end.

(** The items that [to_remove] holds, read off the sorted pairs: the first of
    every two neighbours less than 300 seconds apart. *)
Fixpoint marked (pairs : list (datetime * item)) : list item :=
  match pairs with
  | (d, r) :: rest =>
      match rest with
      | (d', _) :: _ =>
          if (ticks d' - ticks d <? timedelta_seconds 300)%Z
          then r :: marked rest else marked rest
      | [] => []
      end
  | [] => []
  end.

(** The pairs of line 76, sorted. *)
Definition by_date (dates : list datetime) (results : list item) : list (datetime * item) :=
  sorted_by (λ p, ticks p.1) (zip dates results).

(** Line 85 on the sorted pairs. *)
Definition survivors (pairs : list (datetime * item)) : list item :=
  filter (λ r, ¬ py_in r (marked pairs)) pairs.*2.

End readings.

Section stamps.
Context {geojson G : Type} `{!Shapely geojson G} `{!EqDecision geojson}.
Context {payload : Type} `{!EqDecision payload}.
Context (parse : string → option datetime).

(** The pair of line 76 for one item that has a date (the epoch stands in
    for a date that does not parse; no such item reaches line 76). *)
Definition stamp (x : item geojson payload) : datetime * item geojson payload :=
  (match acquired_date parse x with
   | inr d => d
   | inl _ => DateTime 0 false
   end, x).

End stamps.

(** ** The default dates of [search] (lines 48 to 52) *)

(** [now] is what [datetime.datetime.now()] returns.  The subtraction of
    line 52 is the one step of these lines that can raise. *)
Definition default_dates (now : datetime) (start_date end_date : option datetime)
    : result (datetime * datetime) :=
  let end_date := match end_date with None => now | Some e => e end in
  start_date ←
    match start_date with
    | None => datetime_minus end_date (timedelta_days 365)
    | Some s => mret s
    end;
  mret (start_date, end_date).

(** ** The argument checks of the command line (lines 111 to 121) *)

Section main.
Context {geojson : Type}.

(** Modelled from the spec: [utils.valid_geojson], [utils.valid_lat] and
    [utils.valid_lon], the argparse types of [--geom], [--lat] and [--lon],
    are not in the source tree.  The specification has a geometry object
    loaded from a file and a center latitude and longitude: [--geom] is taken
    to give a (non-empty) GeoJSON object and [--lat], [--lon] a number; each
    is [None] when the option is not given. *)
Record args : Type := Args {
  geom : option geojson;
  lat : option Q;
  lon : option Q;
  width : Z;
  height : Z
}.

(** The truth value of an optional number: [None] and zero are false. *)
Definition truthy (v : option Q) : bool :=
  match v with
  | None => false
  | Some q => negb (Qeq_bool q 0)
  end.

(** The two messages of [parser.error], which prints the usage and exits. *)
Inductive usage_error : Type :=
  | MutuallyExclusive   (* '--geom and {--lat, --lon} are mutually exclusive' *)
  | MustBeDefined.      (* 'either --geom or {--lat, --lon} must be defined' *)

(** Where the AOI comes from once the arguments are accepted. *)
Inductive aoi_source : Type :=
  | FromFile (g : geojson)
  | FromCenter (lat lon : option Q) (width height : Z).

(** The truth value of [args.geom]. *)
Definition given (g : option geojson) : bool :=
  match g with
  | None => false
  | Some _ => true
  end.

Definition check_args (a : args) : usage_error + aoi_source :=
  if given (geom a) && (truthy (lat a) || truthy (lon a))
  then inl MutuallyExclusive
  else if negb (given (geom a)) && (negb (truthy (lat a)) || negb (truthy (lon a)))
  then inl MustBeDefined
  else inr (match geom a with
            | Some g => FromFile g
            | None => FromCenter (lat a) (lon a) (width a) (height a)
            end).

End main.

Arguments args : clear implicits.
Arguments aoi_source : clear implicits.

(** ** The search request (lines 54 to 62) *)

(** Line 36. *)
Definition ITEM_TYPES : list string :=
  ["PSScene3Band"; "PSScene4Band"; "PSOrthoTile"; "REScene"; "REOrthoTile";
   "Sentinel2L1C"; "Landsat8L1G"; "Sentinel1"; "SkySatScene"].

Section request.
Context {geojson : Type}.

(** The filters of [planet.api.filters], each the call that builds it. *)
#[warnings="-register-all"]
Inductive api_filter : Type :=
  | geom_filter (aoi : geojson)
  | date_range (field_name : string) (gte lte : datetime)
  | string_filter (field_name : string) (values : list string)
  | and_filter (filters : list api_filter).

(** [api.filters.build_search_request(query, item_types)] *)
Record request : Type :=
  build_search_request { query : api_filter; requested : list string }.

(** Lines 55 to 62. *)
Definition build_request (aoi : geojson) (start_date end_date : datetime)
    (item_types : list string) : request :=
  let geom := geom_filter aoi in
  let date := date_range "acquired" start_date end_date in
  let query :=
    if bool_decide ("PSScene3Band" ∈ item_types)
       || bool_decide ("PSScene4Band" ∈ item_types)
    then and_filter [geom; date; string_filter "quality_category" ["standard"]]
    else and_filter [geom; date] in
  build_search_request query item_types.

End request.

Arguments api_filter : clear implicits.
Arguments request : clear implicits.

(** ** [search] from its first line, and the command line around it *)

Section program.
Context {geojson G : Type} `{!Shapely geojson G} `{!EqDecision geojson}.
Context {payload : Type} `{!EqDecision payload}.
Context (parse : string → option datetime).
(** What [client.quick_search] raises on "any API related errors" (line 64). *)
Context {api_error : Type}.
(** [client.quick_search(request)] with the items [response.items_iter]
    yields, and [utils.geojson_geometry_object], which is not in the source
    tree: it is called with [args.lat], [args.lon], [args.width] and
    [args.height] as they are. *)
Context (quick_search : request geojson → api_error + list (item geojson payload)).
Context (geojson_geometry_object : option Q → option Q → Z → Z → geojson).

(** How a run of [search] ends: the list it returns, the exception of the
    client, or an exception of its own lines (line 52, lines 67 to 85). *)
Inductive ending : Type :=
  | Returned (results : list (item geojson payload))
  | ClientError (e : api_error)
  | Raised (e : exn).

(** Lines 40 to 85: the request [search] sends, if it comes to send one,
    and how it ends. *)
Definition search_with_client (now : datetime) (aoi : geojson)
    (start_date end_date : option datetime) (item_types : list string)
    : option (request geojson) * ending :=
  match default_dates now start_date end_date with
  | inl e => (None, Raised e)
  | inr dates =>
      let request := build_request aoi dates.1 dates.2 item_types in
      (Some request,
       match quick_search request with
       | inl e => ClientError e
       | inr response =>
           match search parse aoi response with
           | inl e => Raised e
           | inr results => Returned results
           end
       end)
  end.

(** What [parser.parse_args()] returns. *)
Record namespace : Type := Namespace {
  coordinates : args geojson;
  start_date : option datetime;
  end_date : option datetime;
  item_types : list string
}.

(** What a run lets the outside see, in order. *)
Inductive event : Type :=
  | KeyMissing                              (* the print of lines 28 to 32 *)
  | Usage (e : usage_error)                 (* [parser.error]: usage and message *)
  | Request (r : request geojson)           (* [client.quick_search(request)] *)
  | Output (results : list (item geojson payload)).  (* [print(json.dumps(...))] *)

(** How the process ends: [sys.exit(status)], an uncaught exception, or the
    end of the script. *)
Inductive exit : Type :=
  | Exit (status : Z)
  | Uncaught (e : api_error + exn)
  | Done.

(** Lines 117 to 121. *)
Definition aoi_of (source : aoi_source geojson) : geojson :=
  match source with
  | FromFile g => g
  | FromCenter lat lon width height => geojson_geometry_object lat lon width height
  end.

(** The script: the key check of lines 25 to 33, then lines 109 to 125 on
    the parsed arguments. *)
Definition main (environ : gmap string string) (now : datetime) (a : namespace)
    : list event * exit :=
  match environ !! "PL_API_KEY" with
  | None => ([KeyMissing], Exit 1)
  | Some _ =>
      match check_args (coordinates a) with
      | inl e => ([Usage e], Exit 2)
      | inr source =>
          let run := search_with_client now (aoi_of source)
                       (start_date a) (end_date a) (item_types a) in
          let sent := match run.1 with Some r => [Request r] | None => [] end in
          match run.2 with
          | Returned results => (sent ++ [Output results], Done)
          | ClientError e => (sent, Uncaught (inl e))
          | Raised e => (sent, Uncaught (inr e))
          end
      end
  end.

End program.

(** ** Fixtures: a small geometry and a small calendar

    Concrete inputs need a concrete shapely and a concrete dateutil.  The
    geometry here has points and axis-parallel rectangles with integer
    corners, and [contains] decides on them what shapely's manual says; the
    calendar knows a handful of ISO 8601 texts. *)

Module Rectilinear.

Inductive geojson : Type :=
  | Point (x y : Z)                        (* {"type": "Point", "coordinates": [x, y]} *)
  | Rectangle (x y : Z) (w h : positive)   (* the Polygon with corners (x, y) and (x+w, y+h) *)
  | Nothing.                               (* a value that is no geometry *)

Inductive geom : Type :=
  | Pt (x y : Z)
  | Box (x y : Z) (w h : positive).

Definition shape_rect (j : geojson) : option geom :=
  match j with
  | Point x y => Some (Pt x y)
  | Rectangle x y w h => Some (Box x y w h)
  | Nothing => None
  end.

Definition contains_rect (a b : geom) : bool :=
  match a, b with
  | Pt x y, Pt x' y' => bool_decide (x = x' ∧ y = y')
  | Pt _ _, Box _ _ _ _ => false
  | Box x y w h, Pt x' y' =>
      bool_decide (x < x' < x + Z.pos w ∧ y < y' < y + Z.pos h)%Z
  | Box x y w h, Box x' y' w' h' =>
      bool_decide (x ≤ x' ∧ x' + Z.pos w' ≤ x + Z.pos w ∧
                   y ≤ y' ∧ y' + Z.pos h' ≤ y + Z.pos h)%Z
  end.

Definition interior_rect (a : geom) (p : point) : Prop :=
  match a with
  | Pt x y => p.1 == inject_Z x ∧ p.2 == inject_Z y
  | Box x y w h =>
      inject_Z x < p.1 ∧ p.1 < inject_Z (x + Z.pos w) ∧
      inject_Z y < p.2 ∧ p.2 < inject_Z (y + Z.pos h)
  end%Q.

Definition boundary_rect (a : geom) (p : point) : Prop :=
  match a with
  | Pt _ _ => False
  | Box x y w h =>
      (inject_Z x <= p.1 ∧ p.1 <= inject_Z (x + Z.pos w) ∧
       inject_Z y <= p.2 ∧ p.2 <= inject_Z (y + Z.pos h)) ∧
      (p.1 == inject_Z x ∨ p.1 == inject_Z (x + Z.pos w) ∨
       p.2 == inject_Z y ∨ p.2 == inject_Z (y + Z.pos h))
  end%Q.

#[global] Instance shapely : Shapely geojson geom :=
  {| shape := shape_rect; contains := contains_rect;
     interior := interior_rect; boundary := boundary_rect |}.

#[global] Instance geojson_eq_dec : EqDecision geojson.
Proof. solve_decision. Defined.

End Rectilinear.

Module Calendar.

(** Microseconds from the epoch to 2017-06-01T10:00:00Z. *)
Definition T : Z := 1496311200000000.

Definition known : list (string * datetime) :=
  [ ("2017-06-01T10:00:00Z", DateTime T true);
    ("2017-06-01T10:02:00Z", DateTime (T + timedelta_seconds 120) true);
    ("2017-06-01T10:05:00Z", DateTime (T + timedelta_seconds 300) true);
    ("2017-06-01T10:06:40Z", DateTime (T + timedelta_seconds 400) true);
    ("2017-06-01T10:10:00Z", DateTime (T + timedelta_seconds 600) true);
    ("2017-06-01T10:00:00", DateTime T false) ].

Fixpoint find (s : string) (table : list (string * datetime)) : option datetime :=
  match table with
  | [] => None
  | (text, d) :: table' => if String.eqb text s then Some d else find s table'
  end.

Definition parse (s : string) : option datetime := find s known.

End Calendar.

Module Fixture.
Import Rectilinear.

(** A footprint and an AOI well inside it. *)
Definition square : geojson := Rectangle 0 0 4 4.
Definition aoi : geojson := Rectangle 1 1 2 2.

(** The scene named [name], acquired at [text], with footprint [g]. *)
Definition scene_of (g : geojson) (text name : string) : scene geojson string :=
  Scene (Some g) (Some text) name.

Definition dT : datetime := DateTime Calendar.T true.
Definition d120 : datetime := DateTime (Calendar.T + timedelta_seconds 120) true.
Definition d400 : datetime := DateTime (Calendar.T + timedelta_seconds 400) true.
Definition d600 : datetime := DateTime (Calendar.T + timedelta_seconds 600) true.

Definition at_T : item geojson string := Item 1 (scene_of square "2017-06-01T10:00:00Z" "a").
Definition at_120 : item geojson string := Item 2 (scene_of square "2017-06-01T10:02:00Z" "b").
Definition at_400 : item geojson string := Item 3 (scene_of square "2017-06-01T10:06:40Z" "c").
Definition at_600 : item geojson string := Item 4 (scene_of square "2017-06-01T10:10:00Z" "d").

(** A second object with the very content of [at_T]. *)
Definition at_T_again : item geojson string := Item 5 (scene_of square "2017-06-01T10:00:00Z" "a").

(** A scene taken at the very time of [at_T], with another name. *)
Definition at_T_other : item geojson string := Item 11 (scene_of square "2017-06-01T10:00:00Z" "j").

(** A scene whose clock is naive. *)
Definition naive : item geojson string := Item 6 (scene_of square "2017-06-01T10:00:00" "e").

(** Scenes off the AOI: one without a date, one with a date that is none. *)
Definition far_undated : item geojson string :=
  Item 7 (Scene (Some (Rectangle 10 10 1 1)) None "f").
Definition far_garbled : item geojson string :=
  Item 8 (scene_of (Rectangle 10 10 1 1) "yesterday" "g").

(** A scene over the AOI without a date, and one without a geometry. *)
Definition near_undated : item geojson string := Item 9 (Scene (Some square) None "h").
Definition shapeless : item geojson string :=
  Item 10 (Scene None (Some "2017-06-01T10:00:00Z") "i").

(** A point on the left edge of [square]. *)
Definition edge_point : geojson := Point 0 2.

(** [--lat 0 --lon 5], no [--geom], the default width and height. *)
Definition on_equator : args geojson := Args None (Some 0%Q) (Some 5%Q) 5000 5000.

End Fixture.

Module Setting.
Import Rectilinear Fixture.

(** A catalog that answers every request with the same three scenes, and one
    that is down. *)
Definition catalog (r : request geojson) : string + list (item geojson string) :=
  inr [at_400; at_T; at_120].
Definition down (r : request geojson) : string + list (item geojson string) :=
  inl "503".

(** A stand-in for [utils.geojson_geometry_object]: the square of the given
    width and height whose lower left corner is the origin. *)
Definition geometry_object (lat lon : option Q) (width height : Z) : geojson :=
  Rectangle 0 0 (Z.to_pos width) (Z.to_pos height).

Definition now : datetime := DateTime (Calendar.T + timedelta_days 1) false.

Definition with_key : gmap string string := {["PL_API_KEY" := "0123"]}.

(** [--geom] alone, and [--lat 0 --lon 5]. *)
Definition from_file : namespace :=
  Namespace (Args (Some aoi) None None 5000 5000) None None ["PSScene3Band"].
Definition from_equator : namespace :=
  Namespace on_equator None None ["PSScene3Band"].

(** 0001-06-01T00:00:00, the 152nd day of year 1, and [--geom] with
    [--end-date 0001-06-01]. *)
Definition year_one : datetime := DateTime (datetime_min + timedelta_days 151) false.
Definition until_year_one : namespace :=
  Namespace (Args (Some aoi) None None 5000 5000) None (Some year_one) ["PSScene3Band"].

End Setting.

(** * Part II: what the program does *)

(** ** The stable sort *)

Section stable_sort_facts.
Context {A : Type} (key : A → Z).

Lemma insert_by_perm x l : insert_by key x l ≡ₚ x :: l.
Proof.
  induction l as [|y l IH]; simpl; [done|].
  destruct (key y <? key x)%Z; [|done].
  rewrite IH. apply perm_swap.
Qed.

Lemma sorted_by_perm l : sorted_by key l ≡ₚ l.
Proof.
  induction l as [|x l IH]; simpl; [done|].
  by rewrite insert_by_perm, IH.
Qed.

Lemma insert_by_ascending x l : ascending key l → ascending key (insert_by key x l).
Proof.
  unfold ascending. induction 1 as [|y l Hl IH Hy]; simpl.
  - repeat constructor.
  - destruct (key y <? key x)%Z eqn:E.
    + constructor; [done|].
      apply Forall_forall. intros z Hz.
      rewrite insert_by_perm in Hz. apply elem_of_cons in Hz as [->|Hz].
      * apply Z.ltb_lt in E. lia.
      * by eapply Forall_forall in Hy.
    + apply Z.ltb_ge in E. constructor; [by constructor|].
      constructor; [done|].
      eapply Forall_impl; [exact Hy|]. simpl. intros. lia.
Qed.

Lemma sorted_by_ascending l : ascending key (sorted_by key l).
Proof.
  induction l as [|x l IH]; simpl; [constructor|].
  by apply insert_by_ascending.
Qed.

Lemma insert_by_head x l :
  Forall (λ y, (key x ≤ key y)%Z) l → insert_by key x l = x :: l.
Proof.
  destruct 1 as [|y l Hy _]; simpl; [done|].
  destruct (Z.ltb_spec (key y) (key x)); [lia|done].
Qed.

(** Sorting a list that is in order already returns it as it is. *)
Lemma sorted_by_id l : ascending key l → sorted_by key l = l.
Proof.
  induction 1 as [|x l Hl IH Hx]; simpl; [done|].
  rewrite IH. by apply insert_by_head.
Qed.

(** Stability: among the elements of one key the input order is kept. *)
Lemma insert_by_filter_key k x l :
  filter (λ a, key a = k) (insert_by key x l) = filter (λ a, key a = k) (x :: l).
Proof.
  induction l as [|y l IH]; simpl; [done|].
  destruct (Z.ltb_spec (key y) (key x)) as [Hlt|]; [|done].
  rewrite filter_cons, IH, !filter_cons.
  repeat case_decide; try done; lia.
Qed.

Lemma sorted_by_stable k l :
  filter (λ a, key a = k) (sorted_by key l) = filter (λ a, key a = k) l.
Proof.
  induction l as [|x l IH]; simpl; [done|].
  rewrite insert_by_filter_key, !filter_cons, IH. done.
Qed.

Lemma ascending_filter (P : A → Prop) `{!∀ a, Decision (P a)} l :
  ascending key l → ascending key (filter P l).
Proof.
  unfold ascending. induction 1 as [|x l Hl IH Hx]; [constructor|].
  rewrite filter_cons. case_decide; [|done].
  constructor; [done|].
  apply Forall_forall. intros y [_ Hy]%list_elem_of_filter.
  by eapply Forall_forall in Hx.
Qed.

End stable_sort_facts.

(** Sorting pairs by their first component sorts the first components. *)
Lemma insert_by_fst {A B : Type} (key : A → Z) (p : A * B) (s : list (A * B)) :
  (insert_by (λ p, key p.1) p s).*1 = insert_by key p.1 s.*1.
Proof.
  induction s as [|p' s IH]; [done|].
  rewrite fmap_cons. cbn [insert_by].
  destruct (key p'.1 <? key p.1)%Z; rewrite !fmap_cons; [by rewrite IH|done].
Qed.

Lemma sorted_by_fst {A B : Type} (key : A → Z) (l : list (A * B)) :
  (sorted_by (λ p, key p.1) l).*1 = sorted_by key l.*1.
Proof.
  induction l as [|p l IH]; [done|].
  change ((insert_by (λ p, key p.1) p (sorted_by (λ p, key p.1) l)).*1
          = insert_by key p.1 (sorted_by key l.*1)).
  by rewrite insert_by_fst, IH.
Qed.

Lemma ascending_fmap {A B : Type} (f : A → B) (key : B → Z) (l : list A) :
  ascending key (f <$> l) ↔ ascending (λ a, key (f a)) l.
Proof.
  unfold ascending. induction l as [|x l IH]; simpl.
  - split; constructor.
  - split; inversion_clear 1 as [|?? Hl Hx]; constructor; try (by apply IH).
    + rewrite Forall_fmap in Hx. exact Hx.
    + rewrite Forall_fmap. exact Hx.
Qed.

(** ** The error monad *)

Lemma bind_inr {A B : Type} (m : result A) (f : A → result B) (y : B) :
  m ≫= f = inr y ↔ ∃ x, m = inr x ∧ f x = inr y.
Proof.
  destruct m as [e|x]; simpl; split.
  - discriminate.
  - by intros (? & ? & _).
  - eauto.
  - by intros (? & [= <-] & ?).
Qed.

Lemma bind_inl {A B : Type} (m : result A) (f : A → result B) (e : exn) :
  m ≫= f = inl e ↔ m = inl e ∨ ∃ x, m = inr x ∧ f x = inl e.
Proof.
  destruct m as [e'|x]; simpl; split.
  - intros [= <-]. by left.
  - intros [[= <-]|(? & ? & _)]; done.
  - eauto.
  - intros [|(? & [= <-] & ?)]; done.
Qed.

Lemma for_each_inr {A B : Type} (f : A → result B) xs ys :
  for_each f xs = inr ys ↔ Forall2 (λ x y, f x = inr y) xs ys.
Proof.
  revert ys. induction xs as [|x xs IH]; intros ys; simpl.
  - split; [intros [= <-]; constructor|by inversion 1].
  - rewrite bind_inr. split.
    + intros (y & Hy & (ys' & Hys & [= <-])%bind_inr).
      constructor; [done|]. by apply IH.
    + inversion_clear 1 as [|? y ? ys' Hy Hys].
      exists y. split; [done|]. apply bind_inr. exists ys'.
      split; [by apply IH|done].
Qed.

Lemma for_each_inl {A B : Type} (f : A → result B) xs e :
  for_each f xs = inl e → ∃ x, x ∈ xs ∧ f x = inl e.
Proof.
  induction xs as [|x xs IH]; simpl; [done|].
  rewrite bind_inl. intros [?|(y & _ & [?|(ys & _ & ?)]%bind_inl)].
  - exists x. split; [left|done].
  - destruct IH as (x' & ? & ?); [done|]. exists x'. split; [by right|done].
  - done.
Qed.


(** ** Datetimes of one kind *)

Lemma comparable_uniform ds : comparable ds = true ↔ uniform ds.
Proof.
  destruct ds as [|d0 ds]; simpl.
  - split; [|done]. intros _ d d' Hd. by apply elem_of_nil in Hd.
  - rewrite forallb_forall. split.
    + intros Hall.
      assert (∀ d, d ∈ d0 :: ds → aware d = aware d0) as Hd0.
      { intros d [->|Hd]%elem_of_cons; [done|].
        apply Bool.eqb_prop, Hall. by apply list_elem_of_In. }
      intros d d' Hd Hd'. by rewrite (Hd0 d), (Hd0 d').
    + intros Huni d Hd%list_elem_of_In.
      rewrite (Huni d d0); [apply Bool.eqb_reflx|by right|by left].
Qed.

Lemma uniform_perm ds ds' : ds ≡ₚ ds' → uniform ds → uniform ds'.
Proof. intros Hp Huni d d' Hd Hd'. apply Huni; by rewrite Hp. Qed.

Lemma uniform_subseteq ds ds' : ds' ⊆ ds → uniform ds → uniform ds'.
Proof. intros Hsub Huni d d' Hd Hd'. apply Huni; by apply Hsub. Qed.

Lemma datetime_diff_uniform ds d d' :
  uniform ds → d ∈ ds → d' ∈ ds → datetime_diff d' d = inr (ticks d' - ticks d)%Z.
Proof.
  intros Huni Hd Hd'. unfold datetime_diff.
  rewrite (Huni d' d Hd' Hd), Bool.eqb_reflx. done.
Qed.



(** ** The steps of [search] *)

Section search_facts.
Context {geojson G : Type} `{!Shapely geojson G} `{!EqDecision geojson}.
Context {payload : Type} `{!EqDecision payload}.
Context (parse : string → option datetime).

#[local] Abbreviation item := (item geojson payload).

Lemma py_in_spec (r : item) l :
  py_in r l = true ↔ ∃ m, m ∈ l ∧ dict m = dict r.
Proof.
  unfold py_in. rewrite existsb_exists. unfold same.
  setoid_rewrite bool_decide_eq_true.
  by setoid_rewrite list_elem_of_In.
Qed.

Lemma py_in_elem_of (r : item) l : r ∈ l → py_in r l = true.
Proof. intros Hr. apply py_in_spec. exists r. auto. Qed.

Lemma containing_inr aoi (response results : list item) :
  containing aoi response = inr results ↔
  Forall (λ x, ∃ g, footprint x = inr g) response ∧
  results = filter (λ x : item, kept aoi x = true) response.
Proof.
  revert results. induction response as [|x l IH]; intros results; simpl.
  - split; [intros [= <-]|intros [_ ->]]; done.
  - rewrite bind_inr. split.
    + intros (g & Hg & (rs & Hrs & [= <-])%bind_inr).
      apply IH in Hrs as [Hl ->]. split; [constructor; eauto|].
      assert (kept aoi x = contains g aoi) as Hk by (unfold kept; by rewrite Hg).
      rewrite filter_cons, Hk.
      destruct (contains g aoi); by case_decide.
    + intros [Hl ->]. inversion_clear Hl as [|?? [g Hg] Hl'].
      exists g. split; [done|]. apply bind_inr. eexists. split.
      { apply IH. split; [done|reflexivity]. }
      assert (kept aoi x = contains g aoi) as Hk by (unfold kept; by rewrite Hg).
      rewrite filter_cons, Hk.
      destruct (contains g aoi); by case_decide.
Qed.

Lemma containing_inl aoi response e :
  containing aoi response = inl e ↔
  ∃ l1 (x : item) l2, response = l1 ++ x :: l2 ∧ footprint x = inl e ∧
                      Forall (λ x, ∃ g, footprint x = inr g) l1.
Proof.
  induction response as [|x l IH]; simpl.
  - split; [done|]. intros (l1 & ? & ? & ? & _). by destruct l1.
  - rewrite bind_inl. split.
    + intros [Hx|(g & Hg & [Hl|(? & _ & ?)]%bind_inl)]; [| |done].
      * exists [], x, l. by repeat split.
      * apply IH in Hl as (l1 & y & l2 & -> & Hy & Hl1).
        exists (x :: l1), y, l2. repeat split; [done|]. constructor; eauto.
    + intros (l1 & y & l2 & Heq & Hy & Hl1).
      destruct l1 as [|x' l1]; simplify_eq/=; [by left|].
      inversion_clear Hl1 as [|?? [g Hg] Hl1']. right. exists g. split; [done|].
      apply bind_inl. left. apply IH. by exists l1, y, l2.
Qed.

(** [dates[i+1]] is always there, and the two datetimes subtract: the loop
    of lines 81 to 83 raises nothing on sorted pairs of one kind, and what
    it collects is [marked]. *)
Lemma mark_from_marked (pre pairs : list (datetime * item)) :
  uniform (pre ++ pairs).*1 →
  mark_from (pre ++ pairs).*1 (length pre) (removelast pairs) = inr (marked pairs).
Proof.
  revert pre. induction pairs as [|[d r] [|[d' r'] rest] IH]; intros pre Huni; [done..|].
  change (removelast ((d, r) :: (d', r') :: rest))
    with ((d, r) :: removelast ((d', r') :: rest)).
  cbn [mark_from marked].
  assert ((pre ++ (d, r) :: (d', r') :: rest).*1 !! S (length pre) = Some d') as Hidx.
  { rewrite list_lookup_fmap, lookup_app_r by lia.
    by replace (S (length pre) - length pre) with 1 by lia. }
  unfold index. rewrite Hidx. simpl.
  rewrite (datetime_diff_uniform _ d d' Huni).
  - simpl. specialize (IH (pre ++ [(d, r)])).
    rewrite <-app_assoc, length_app in IH. simpl in IH.
    replace (length pre + 1) with (S (length pre)) in IH by lia.
    rewrite IH by done. done.
  - rewrite fmap_app, !fmap_cons, elem_of_app, !elem_of_cons. auto.
  - rewrite fmap_app, !fmap_cons, elem_of_app, !elem_of_cons. auto.
Qed.

Lemma to_remove_marked (pairs : list (datetime * item)) :
  uniform pairs.*1 → to_remove pairs.*1 pairs.*2 = inr (marked pairs).
Proof.
  intros Huni. unfold to_remove. rewrite zip_fst_snd.
  by apply (mark_from_marked []).
Qed.

End search_facts.

Section search_unfolded.
Context {geojson G : Type} `{!Shapely geojson G} `{!EqDecision geojson}.
Context {payload : Type} `{!EqDecision payload}.
Context (parse : string → option datetime).

#[local] Abbreviation item := (item geojson payload).

(** The two sorts of lines 76 and 77 agree: the dates come out as the first
    components of the sorted pairs. *)
Lemma sort_by_date_unfold (results : list item) :
  sort_by_date parse results =
    dates ← for_each (acquired_date parse) results;
    if comparable dates
    then mret ((by_date dates results).*1, (by_date dates results).*2)
    else raise TypeError.
Proof.
  unfold sort_by_date.
  destruct (for_each (acquired_date parse) results) as [|dates] eqn:Hdates; [done|].
  simpl. apply for_each_inr, Forall2_length in Hdates.
  unfold sorted. rewrite fst_zip by lia. rewrite list_fmap_id.
  destruct (comparable dates) eqn:Hcmp; [|done]. simpl.
  change (sorted_by _ (zip dates results)) with (by_date dates results).
  unfold by_date. by rewrite (sorted_by_fst ticks), fst_zip by lia.
Qed.

Lemma by_date_uniform dates (results : list item) :
  length results = length dates → uniform dates → uniform (by_date dates results).*1.
Proof.
  intros Hlen Huni. unfold by_date. rewrite (sorted_by_fst ticks), fst_zip by lia.
  eapply uniform_perm; [symmetry; apply sorted_by_perm|done].
Qed.

(** [search] with the two sorts and the marking loop collapsed: after the
    dates are parsed, the only exception left is the [TypeError] of the
    sort. *)
Lemma search_unfold aoi (response : list item) :
  search parse aoi response =
    a ← shape_of aoi;
    results ← containing a response;
    dates ← for_each (acquired_date parse) results;
    if comparable dates then mret (survivors (by_date dates results))
    else raise TypeError.
Proof.
  unfold search. destruct (shape_of aoi) as [|a]; [done|]. simpl.
  destruct (containing a response) as [|results]; [done|]. simpl.
  rewrite sort_by_date_unfold.
  destruct (for_each (acquired_date parse) results) as [|dates] eqn:Hdates; [done|].
  simpl. apply for_each_inr, Forall2_length in Hdates.
  destruct (comparable dates) eqn:Hcmp; [|done]. simpl.
  unfold remove_duplicates. rewrite to_remove_marked; [done|].
  apply by_date_uniform; [done|]. by apply comparable_uniform.
Qed.

End search_unfolded.

(** ** Lists *)

Lemma filter_fmap {A B : Type} (f : A → B) (P : B → Prop) `{!∀ b, Decision (P b)}
    (l : list A) :
  filter P (f <$> l) = f <$> filter (λ a, P (f a)) l.
Proof.
  induction l as [|a l IH]; [done|].
  rewrite fmap_cons, !filter_cons, IH. by case_decide.
Qed.

Lemma filter_all {A : Type} (P : A → Prop) `{!∀ a, Decision (P a)} (l : list A) :
  Forall P l → filter P l = l.
Proof.
  induction 1 as [|a l Ha _ IH]; [done|].
  by rewrite filter_cons_True, IH.
Qed.

Lemma zip_lookup {A B : Type} (l : list A) (k : list B) i a b :
  zip l k !! i = Some (a, b) ↔ l !! i = Some a ∧ k !! i = Some b.
Proof.
  revert k i. induction l as [|a' l IH]; intros [|b' k] [|i]; simpl;
    try (split; [done|by intros [??]]).
  - split; [by intros [= -> ->]|by intros [[= ->] [= ->]]].
  - apply IH.
Qed.

Section removal_facts.
Context {geojson G : Type} `{!Shapely geojson G} `{!EqDecision geojson}.
Context {payload : Type} `{!EqDecision payload}.
Context (parse : string → option datetime).

#[local] Abbreviation item := (item geojson payload).
#[local] Abbreviation pairs_key := (λ p : datetime * item, ticks p.1).

Lemma marked_cons2 d r d' r' (rest : list (datetime * item)) :
  marked ((d, r) :: (d', r') :: rest) =
    if (ticks d' - ticks d <? timedelta_seconds 300)%Z
    then r :: marked ((d', r') :: rest) else marked ((d', r') :: rest).
Proof. done. Qed.

Lemma marked_cons_subseteq p (pairs : list (datetime * item)) r :
  r ∈ marked pairs → r ∈ marked (p :: pairs).
Proof.
  destruct p as [d r0], pairs as [|[d' r'] rest]; [done|].
  intros Hr. rewrite marked_cons2.
  destruct (ticks d' - ticks d <? timedelta_seconds 300)%Z; [by right|done].
Qed.

(** [marked] by positions. *)
Lemma elem_of_marked (pairs : list (datetime * item)) r :
  r ∈ marked pairs ↔
  ∃ i d p', pairs !! i = Some (d, r) ∧ pairs !! S i = Some p' ∧
            (ticks p'.1 - ticks d < timedelta_seconds 300)%Z.
Proof.
  induction pairs as [|[d0 r0] rest IH]; [|destruct rest as [|[d1 r1] rest']].
  - split; [by intros ?%elem_of_nil|by intros (? & ? & ? & ? & _)].
  - split; [by intros ?%elem_of_nil|]. by intros ([|[|i]] & ? & ? & ? & ? & _).
  - rewrite marked_cons2.
    destruct (Z.ltb_spec (ticks d1 - ticks d0) (timedelta_seconds 300)) as [Hlt|Hge].
    + rewrite elem_of_cons, IH. split.
      * intros [->|(i & d & p' & ? & ? & ?)].
        -- exists 0, d0, (d1, r1). by repeat split.
        -- exists (S i), d, p'. by repeat split.
      * intros ([|i] & d & p' & Hi & Hi' & Hgap); simplify_eq/=; [by left|].
        right. by exists i, d, p'.
    + rewrite IH. split.
      * intros (i & d & p' & ? & ? & ?). exists (S i), d, p'. by repeat split.
      * intros ([|i] & d & p' & Hi & Hi' & Hgap); simplify_eq/=; [lia|].
        by exists i, d, p'.
Qed.

(** Once the marked items are gone, no two neighbours that are left are less
    than 300 seconds apart: the loop finds nothing to mark on what it
    returned. *)
Lemma marked_filter_nil (K : datetime * item → Prop) `{!∀ p, Decision (K p)}
    (pairs : list (datetime * item)) :
  ascending pairs_key pairs →
  (∀ p, p ∈ pairs → K p → p.2 ∉ marked pairs) →
  marked (filter K pairs) = [].
Proof.
  induction pairs as [|[d r] rest IH]; intros Hasc HK; [done|].
  apply StronglySorted_inv in Hasc as [Hrest Hall].
  assert (marked (filter K rest) = []) as IH'.
  { apply IH; [done|]. intros p Hp HKp Hm.
    apply (HK p); [by right|done|by apply marked_cons_subseteq]. }
  rewrite filter_cons. case_decide as HKd; [|done].
  destruct (filter K rest) as [|[d2 r2] q] eqn:Hq; [done|].
  rewrite marked_cons2. rewrite IH'.
  assert ((d2, r2) ∈ rest) as Hin.
  { eapply list_elem_of_filter. rewrite Hq. by left. }
  destruct rest as [|[d1 r1] rest']; [by apply elem_of_nil in Hin|].
  assert (ticks d1 ≤ ticks d2)%Z as Hle.
  { apply StronglySorted_inv in Hrest as [_ Hall1].
    apply elem_of_cons in Hin as [[= -> ->]|Hin]; [lia|].
    rewrite Forall_forall in Hall1. apply (Hall1 (d2, r2) Hin). }
  destruct (Z.ltb_spec (ticks d2 - ticks d) (timedelta_seconds 300)) as [Hlt|]; [|done].
  exfalso. apply (HK (d, r)); [by left|done|].
  rewrite marked_cons2.
  destruct (Z.ltb_spec (ticks d1 - ticks d) (timedelta_seconds 300)); [by left|lia].
Qed.

(** What is left, as pairs. *)
Lemma survivors_pairs (pairs : list (datetime * item)) :
  survivors pairs = (filter (λ p, ¬ py_in p.2 (marked pairs)) pairs).*2.
Proof. unfold survivors. by rewrite filter_fmap. Qed.

Lemma survivors_fixed (pairs : list (datetime * item)) :
  ascending pairs_key pairs →
  let left := filter (λ p, ¬ py_in p.2 (marked pairs)) pairs in
  survivors left = left.*2.
Proof.
  intros Hasc left. unfold survivors. subst left.
  rewrite (marked_filter_nil _ pairs Hasc).
  - apply filter_all, Forall_forall. intros r _ Hr. exact Hr.
  - intros p _ Hp Hm. apply Hp. by rewrite py_in_elem_of.
Qed.

End removal_facts.

Section duplicates.
Context {geojson G : Type} `{!Shapely geojson G} `{!EqDecision geojson}.
Context {payload : Type} `{!EqDecision payload}.
Context (parse : string → option datetime).

#[local] Abbreviation item := (item geojson payload).

Lemma datetime_diff_inr d' d gap :
  datetime_diff d' d = inr gap → gap = (ticks d' - ticks d)%Z.
Proof. unfold datetime_diff. destruct (Bool.eqb _ _); by intros [= <-]. Qed.

(** Whenever the loop of lines 81 to 83 ends, it has collected [marked]. *)
Lemma mark_from_inr (pre pairs : list (datetime * item)) m :
  mark_from (pre ++ pairs).*1 (length pre) (removelast pairs) = inr m →
  m = marked pairs.
Proof.
  revert pre m.
  induction pairs as [|[d r] [|[d' r'] rest] IH]; intros pre m;
    [by intros [= <-]..|].
  change (removelast ((d, r) :: (d', r') :: rest))
    with ((d, r) :: removelast ((d', r') :: rest)).
  cbn [mark_from]. rewrite marked_cons2.
  assert ((pre ++ (d, r) :: (d', r') :: rest).*1 !! S (length pre) = Some d') as Hidx.
  { rewrite list_lookup_fmap, lookup_app_r by lia.
    by replace (S (length pre) - length pre) with 1 by lia. }
  unfold index. rewrite Hidx. simpl.
  intros (gap & ->%datetime_diff_inr & (m' & Hm' & [= <-])%bind_inr)%bind_inr.
  specialize (IH (pre ++ [(d, r)]) m').
  rewrite <-app_assoc, length_app in IH. simpl in IH.
  replace (length pre + 1) with (S (length pre)) in IH by lia.
  by rewrite (IH Hm').
Qed.

Lemma to_remove_inr dates (results : list item) m :
  length dates = length results →
  to_remove dates results = inr m → m = marked (zip dates results).
Proof.
  unfold to_remove. intros Hlen Hm. apply (mark_from_inr [] (zip dates results)).
  simpl. by rewrite fst_zip by lia.
Qed.

Lemma to_remove_uniform dates (results : list item) :
  length dates = length results → uniform dates →
  to_remove dates results = inr (marked (zip dates results)).
Proof.
  intros Hlen Huni. pose proof (to_remove_marked (zip dates results)) as Hm.
  rewrite fst_zip, snd_zip in Hm by lia. by apply Hm.
Qed.

(** [marked] by the positions in [dates] and [results]. *)
Lemma elem_of_marked_zip dates (results : list item) r :
  length dates = length results →
  r ∈ marked (zip dates results) ↔
  ∃ i d d', results !! i = Some r ∧ dates !! i = Some d ∧ dates !! S i = Some d' ∧
            (ticks d' - ticks d < timedelta_seconds 300)%Z.
Proof.
  intros Hlen. rewrite elem_of_marked. split.
  - intros (i & d & [d' r'] & [??]%zip_lookup & [??]%zip_lookup & ?).
    by exists i, d, d'.
  - intros (i & d & d' & Hr & Hd & Hd' & Hgap).
    destruct (results !! S i) as [r'|] eqn:Hr'.
    + exists i, d, (d', r'). by rewrite !zip_lookup.
    + apply lookup_ge_None in Hr'. apply lookup_lt_Some in Hd'. lia.
Qed.


End duplicates.

Section scenarios.
Context {geojson G : Type} `{!Shapely geojson G} `{!EqDecision geojson}.
Context {payload : Type} `{!EqDecision payload}.
Context (parse : string → option datetime).

#[local] Abbreviation item := (item geojson payload).

Lemma acquired_date_dict (x y : item) :
  dict x = dict y → acquired_date parse x = acquired_date parse y.
Proof. unfold acquired_date. by intros ->. Qed.

Lemma containing_all_kept a (response : list item) :
  Forall (λ x, kept a x = true) response → containing a response = inr response.
Proof.
  intros Hall. apply containing_inr. split.
  - eapply Forall_impl; [exact Hall|]. intros x. unfold kept.
    destruct (footprint x); [done|eauto].
  - symmetry. by apply filter_all.
Qed.

(** [search] on items that all contain the AOI and all carry a date. *)
Lemma search_kept aoi a (response : list item) dates :
  shape aoi = Some a →
  Forall (λ x, kept a x = true) response →
  Forall2 (λ x d, acquired_date parse x = inr d) response dates →
  uniform dates →
  search parse aoi response = inr (survivors (by_date dates response)).
Proof.
  intros Ha Hkept Hdates Huni. rewrite search_unfold.
  unfold shape_of. rewrite Ha. simpl.
  rewrite containing_all_kept by done. simpl.
  apply for_each_inr in Hdates. rewrite Hdates. simpl.
  apply comparable_uniform in Huni. by rewrite Huni.
Qed.

Lemma scenario_three aoi a (xT x120 x400 : item) T tz response :
  shape aoi = Some a →
  kept a xT = true → kept a x120 = true → kept a x400 = true →
  acquired_date parse xT = inr (DateTime T tz) →
  acquired_date parse x120 = inr (DateTime (T + timedelta_seconds 120) tz) →
  acquired_date parse x400 = inr (DateTime (T + timedelta_seconds 400) tz) →
  response ≡ₚ [xT; x120; x400] →
  search parse aoi response = inr [x400].
Proof.
  intros Ha HkT Hk120 Hk400 HdT Hd120 Hd400 Hperm.
  unfold timedelta_seconds in *.
  set (dT := DateTime T tz) in *.
  set (d120 := DateTime (T + 120 * 1000000) tz) in *.
  set (d400 := DateTime (T + 400 * 1000000) tz) in *.
  assert (survivors [(dT, xT); (d120, x120); (d400, x400)] = [x400]) as Hleft.
  { assert (marked [(dT, xT); (d120, x120); (d400, x400)] = [xT; x120]) as Hm.
    { rewrite !marked_cons2. unfold timedelta_seconds. simpl.
      destruct (Z.ltb_spec (T + 120 * 1000000 - T) (300 * 1000000)); [|lia].
      destruct (Z.ltb_spec (T + 400 * 1000000 - (T + 120 * 1000000)) (300 * 1000000));
        [done|lia]. }
    unfold survivors. rewrite Hm. cbn [fmap list_fmap snd].
    assert (py_in xT [xT; x120] = true) as HinT.
    { apply py_in_elem_of. by left. }
    assert (py_in x120 [xT; x120] = true) as Hin120.
    { apply py_in_elem_of. right. by left. }
    assert (py_in x400 [xT; x120] = false) as Hin400.
    { apply not_true_is_false. intros (m & Hin & Heq)%py_in_spec.
      apply (acquired_date_dict m x400) in Heq. rewrite Hd400 in Heq.
      rewrite !elem_of_cons, elem_of_nil in Hin. destruct Hin as [->|[->|[]]].
      - rewrite HdT in Heq. injection Heq. lia.
      - rewrite Hd120 in Heq. injection Heq. lia. }
    rewrite !filter_cons, filter_nil, HinT, Hin120, Hin400.
    repeat case_decide; naive_solver. }
  assert (uniform [dT; d120; d400]) as Huni.
  { intros d d' Hd Hd'. rewrite !elem_of_cons, elem_of_nil in Hd, Hd'.
    by destruct Hd as [->|[->|[->|[]]]], Hd' as [->|[->|[->|[]]]]. }
  symmetry in Hperm. apply permutations_Permutation in Hperm. cbn in Hperm.
  rewrite !elem_of_cons, elem_of_nil in Hperm.
  destruct Hperm as [->|[->|[->|[->|[->|[->|[]]]]]]];
    (erewrite search_kept;
       [|exact Ha|repeat first [assumption|constructor]
        |repeat first [eassumption|constructor]
        |eapply uniform_perm; [|exact Huni];
         apply permutations_Permutation; cbn; rewrite !elem_of_cons; auto 10]).
  all: match goal with
       | |- inr (survivors ?l) = _ =>
           assert (l = [(dT, xT); (d120, x120); (d400, x400)]) as ->;
             [|by rewrite Hleft]
       end.
  all: unfold by_date, sorted_by;
    cbn [zip zip_with foldr insert_by ticks fst snd dT d120 d400];
    repeat (match goal with
            | |- context [(?x <? ?y)%Z] =>
                destruct (Z.ltb_spec x y); try lia
            end; cbn [insert_by ticks fst snd dT d120 d400]); done.
Qed.

End scenarios.

(** ** The removal of near duplicates *)

Section near_duplicates.
Context {geojson G : Type} `{!Shapely geojson G} `{!EqDecision geojson}.
Context {payload : Type} `{!EqDecision payload}.
Context (parse : string → option datetime).

#[local] Abbreviation item := (item geojson payload).

(** C2.  On the sorted dates and results the near-duplicate pass raises
    nothing; [to_remove] holds exactly the items at an index [i] whose gap to
    the item at index [i+1] is strictly less than 300 seconds, and each of
    them, the earlier one of its close pair, is gone from what the pass
    returns.  So three items that contain the AOI, acquired at T, T+120s and
    T+400s and given in any order, come back as the single item of T+400s. *)
Theorem near_duplicates_marked :
  (∀ (dates : list datetime) (results : list item),
     length dates = length results → uniform dates →
     ∃ marked out,
       to_remove dates results = inr marked ∧
       remove_duplicates dates results = inr out ∧
       (∀ r, r ∈ marked ↔
          ∃ i d d', results !! i = Some r ∧
                    dates !! i = Some d ∧ dates !! S i = Some d' ∧
                    (ticks d' - ticks d < timedelta_seconds 300)%Z) ∧
       (∀ r, r ∈ marked → r ∉ out)) ∧
  (∀ aoi a (xT x120 x400 : item) T tz response,
     shape aoi = Some a →
     kept a xT = true → kept a x120 = true → kept a x400 = true →
     acquired_date parse xT = inr (DateTime T tz) →
     acquired_date parse x120 = inr (DateTime (T + timedelta_seconds 120) tz) →
     acquired_date parse x400 = inr (DateTime (T + timedelta_seconds 400) tz) →
     response ≡ₚ [xT; x120; x400] →
     search parse aoi response = inr [x400]).
Proof.
  split; [|apply scenario_three].
  intros dates results Hlen Huni.
  exists (marked (zip dates results)).
  exists (filter (λ r, ¬ py_in r (marked (zip dates results))) results).
  pose proof (to_remove_uniform dates results Hlen Huni) as Hm.
  split; [done|]. split; [unfold remove_duplicates; by rewrite Hm|].
  split; [intros r; by apply elem_of_marked_zip|].
  intros r Hr [Hnot _]%list_elem_of_filter.
  apply Hnot. by rewrite py_in_elem_of.
Qed.

(** The last item of the sort order.  The pass never marks the item at the
    last index: every marked item stands at an index that has a successor.
    The last item is in the output exactly when its content differs from
    that of every marked item; and a single item that contains the AOI and
    carries a date is returned as the sole output. *)
Lemma last_record_kept_unless_equal :
  (∀ (dates : list datetime) (results out : list item) r,
     length dates = length results →
     remove_duplicates dates results = inr out →
     last results = Some r →
     ∃ marked,
       to_remove dates results = inr marked ∧
       (∀ m, m ∈ marked → ∃ i, results !! i = Some m ∧ S i < length results) ∧
       (r ∈ out ↔ ∀ m, m ∈ marked → dict m ≠ dict r)) ∧
  (∀ aoi a (x : item) d,
     shape aoi = Some a → kept a x = true → acquired_date parse x = inr d →
     search parse aoi [x] = inr [x]).
Proof.
  split.
  - intros dates results out r Hlen (m & Hm & [= <-])%bind_inr Hlast.
    exists m. split; [done|]. apply to_remove_inr in Hm as ->; [|done]. split.
    + intros m (i & d & d' & Hi & _ & Hd' & _)%elem_of_marked_zip; [|done].
      exists i. split; [done|]. apply lookup_lt_Some in Hd'. lia.
    + rewrite list_elem_of_filter. split.
      * intros [Hnot _] m Hm Heq. apply Hnot, Is_true_true, py_in_spec. eauto.
      * intros Hne. split; [|by eapply last_Some_elem_of].
        intros (m & Hm & Heq)%Is_true_true%py_in_spec. by apply (Hne m).
  - intros aoi a x d Ha Hk Hd.
    rewrite (search_kept parse aoi a [x] [d]); try done.
    + by repeat constructor.
    + by repeat constructor.
    + intros d1 d2 ->%list_elem_of_singleton ->%list_elem_of_singleton. done.
Qed.

(** C7.  What line 85 drops is decided by the content of an item, not by its
    index: the output holds the results whose dict differs from the dict of
    every marked item.  So an item whose dict equals that of an item marked
    at some index is dropped wherever it stands, be its own gap to its
    successor 300 seconds or more, and be it the last of the sort order. *)
Theorem removal_is_by_value (dates : list datetime) (results out : list item) :
  length dates = length results →
  remove_duplicates dates results = inr out →
  ∃ marked,
    to_remove dates results = inr marked ∧
    (∀ r, r ∈ out ↔ r ∈ results ∧ ∀ m, m ∈ marked → dict m ≠ dict r) ∧
    (∀ i j m r d d',
       results !! i = Some m →
       dates !! i = Some d → dates !! S i = Some d' →
       (ticks d' - ticks d < timedelta_seconds 300)%Z →
       results !! j = Some r → dict r = dict m → r ∉ out).
Proof.
  intros Hlen (marked & Hm & [= <-])%bind_inr.
  exists marked. split; [done|]. apply to_remove_inr in Hm as ->; [|done].
  assert (∀ r, r ∈ filter (λ r, ¬ py_in r (marked (zip dates results))) results ↔
               r ∈ results ∧ ∀ m, m ∈ marked (zip dates results) → dict m ≠ dict r)
    as Hout.
  { intros r. rewrite list_elem_of_filter. split.
    - intros [Hnot Hr]. split; [done|].
      intros m Hm Heq. apply Hnot, Is_true_true, py_in_spec. eauto.
    - intros [Hr Hne]. split; [|done].
      intros (m & Hm & Heq)%Is_true_true%py_in_spec. by apply (Hne m). }
  split; [done|].
  intros i j m r d d' Hi Hd Hd' Hgap Hj Heq [_ Hne]%Hout.
  apply (Hne m); [|done].
  apply elem_of_marked_zip; [done|]. by exists i, d, d'.
Qed.

End near_duplicates.

(** ** [search] as a whole *)

Lemma filter_comm {A : Type} (P Q : A → Prop)
    `{!∀ a, Decision (P a), !∀ a, Decision (Q a)} (l : list A) :
  filter P (filter Q l) = filter Q (filter P l).
Proof. rewrite !list_filter_filter. apply list_filter_iff. intros a. tauto. Qed.

Lemma sorted_by_stable_on {A : Type} (key : A → Z) (P : A → Prop)
    `{!∀ a, Decision (P a)} k (l : list A) :
  (∀ a, P a → key a = k) → filter P (sorted_by key l) = filter P l.
Proof.
  intros HP.
  rewrite <-(list_filter_filter_l P (λ a, key a = k) (sorted_by key l)) by done.
  rewrite sorted_by_stable. by apply list_filter_filter_l.
Qed.

Lemma filter_middle_inv {A : Type} (P : A → Prop) `{!∀ a, Decision (P a)}
    (l front back : list A) x :
  filter P l = front ++ x :: back →
  ∃ l1 l2, l = l1 ++ x :: l2 ∧ filter P l1 = front ∧ filter P l2 = back.
Proof.
  revert front. induction l as [|a l IH]; intros front Hl.
  - by destruct front.
  - rewrite filter_cons in Hl. destruct (decide (P a)) as [Ha|Ha].
    + destruct front as [|a' front]; simplify_eq/=.
      * by exists [], l.
      * destruct (IH front) as (l1 & l2 & -> & <- & <-); [done|].
        eexists (_ :: l1), l2. by rewrite filter_cons_True.
    + destruct (IH front Hl) as (l1 & l2 & -> & <- & <-).
      exists (a :: l1), l2. by rewrite filter_cons_False.
Qed.

Lemma ascending_lookup {A : Type} (key : A → Z) (l : list A) i x y :
  ascending key l → l !! i = Some x → l !! S i = Some y → (key x ≤ key y)%Z.
Proof.
  intros Hasc. revert i. induction Hasc as [|a l _ IH Ha]; intros i; [done|].
  destruct i as [|i]; simpl.
  - intros [= ->] Hy. apply list_elem_of_lookup_2 in Hy.
    rewrite Forall_forall in Ha. by apply Ha.
  - apply IH.
Qed.

Section whole_search.
Context {geojson G : Type} `{!Shapely geojson G} `{!EqDecision geojson}.
Context {payload : Type} `{!EqDecision payload}.
Context (parse : string → option datetime).

#[local] Abbreviation item := (item geojson payload).
#[local] Abbreviation dated :=
  (λ p : datetime * item, acquired_date parse p.2 = inr p.1).

Lemma zip_dated (results : list item) dates :
  Forall2 (λ x d, acquired_date parse x = inr d) results dates →
  Forall dated (zip dates results).
Proof. induction 1; simpl; by constructor. Qed.

Lemma dated_Forall2 (pairs : list (datetime * item)) :
  Forall dated pairs →
  Forall2 (λ x d, acquired_date parse x = inr d) pairs.*2 pairs.*1.
Proof. induction 1 as [|[d x] ? ? ? IH]; simpl; by constructor. Qed.

Lemma filter_dated (pairs : list (datetime * item)) d :
  Forall dated pairs →
  filter (λ x, acquired_date parse x = inr d) pairs.*2
  = (filter (λ p, p.1 = d) pairs).*2.
Proof.
  induction 1 as [|[d' x] l Hx _ IH]; [done|]. simpl in Hx.
  rewrite fmap_cons, !filter_cons, IH. simpl. rewrite Hx.
  destruct (decide (d' = d)) as [->|Hne].
  - by rewrite decide_True.
  - rewrite decide_False; [done|]. by intros [= ?].
Qed.

Lemma by_date_perm dates (results : list item) :
  by_date dates results ≡ₚ zip dates results.
Proof. apply sorted_by_perm. Qed.

Lemma by_date_ascending dates (results : list item) :
  ascending (λ p, ticks p.1) (by_date dates results).
Proof. apply sorted_by_ascending. Qed.

(** When [search] returns: the AOI is a geometry, every footprint is one,
    every item that contains the AOI has a date, the dates are of one kind,
    and the output is what line 85 leaves of the pairs sorted by date. *)
Lemma search_inr aoi (response out : list item) :
  search parse aoi response = inr out ↔
  ∃ a dates,
    shape aoi = Some a ∧
    Forall (λ x, ∃ g, footprint x = inr g) response ∧
    Forall2 (λ x d, acquired_date parse x = inr d)
      (filter (λ x, kept a x = true) response) dates ∧
    uniform dates ∧
    out = survivors (by_date dates (filter (λ x, kept a x = true) response)).
Proof.
  rewrite search_unfold. unfold shape_of. split.
  - destruct (shape aoi) as [a|]; [|done]. simpl.
    intros (results & [Hfp ->]%containing_inr & Hrest)%bind_inr.
    apply bind_inr in Hrest as (dates & Hdates%for_each_inr & Hout).
    destruct (comparable dates) eqn:Hcmp; [|done].
    injection Hout as <-. exists a, dates.
    by rewrite <-comparable_uniform.
  - intros (a & dates & -> & Hfp & Hdates & Huni & ->). simpl.
    apply bind_inr. eexists. split; [by apply containing_inr|].
    apply bind_inr. exists dates. split; [by apply for_each_inr|].
    apply comparable_uniform in Huni. by rewrite Huni.
Qed.

(** Of two items of one date, the one that stands first in the results is
    marked: the stable sort leaves it before the other, with nothing but
    items of that date between the two. *)
Lemma first_of_a_tie_marked (results front back : list item) dates x y d :
  Forall2 (λ x d, acquired_date parse x = inr d) results dates →
  results = front ++ x :: back → y ∈ back →
  acquired_date parse x = inr d → acquired_date parse y = inr d →
  x ∈ marked (by_date dates results).
Proof.
  intros Hdates -> Hy Hx Hyd.
  pose proof (by_date_ascending dates (front ++ x :: back)) as Hasc.
  assert (filter (λ p : datetime * item, p.1 = d) (by_date dates (front ++ x :: back))
          = filter (λ p, p.1 = d) (zip dates (front ++ x :: back))) as Htie.
  { unfold by_date. apply (sorted_by_stable_on _ _ (ticks d)). by intros p <-. }
  apply Forall2_app_inv_l in Hdates as (dates1 & dates2 & Hfront & Hrest & ->).
  apply Forall2_cons_inv_l in Hrest as (d' & dates3 & Hx' & Hback & ->).
  assert (d' = d) as -> by congruence.
  rewrite zip_with_app in Htie by (by apply Forall2_length in Hfront).
  simpl in Htie. rewrite filter_app, filter_cons_True in Htie by done.
  apply filter_middle_inv in Htie as (pairs1 & pairs2 & Hpairs & _ & Hback').
  assert ((d, y) ∈ pairs2) as Hy'.
  { assert ((d, y) ∈ filter (λ p : datetime * item, p.1 = d) pairs2) as Hin.
    { rewrite Hback'. apply list_elem_of_filter. split; [done|].
      apply list_elem_of_lookup_1 in Hy as [j Hj].
      destruct (Forall2_lookup_l _ _ _ _ _ Hback Hj) as (dy & Hdy & Hdy').
      assert (dy = d) as -> by congruence.
      apply list_elem_of_lookup_2 with j. by apply zip_lookup. }
    by apply list_elem_of_filter in Hin as [_ ?]. }
  rewrite Hpairs in Hasc |- *.
  apply StronglySorted_app_1_r in Hasc.
  apply StronglySorted_inv in Hasc as [Hasc Hx_le].
  destruct pairs2 as [|p' pairs2]; [by apply elem_of_nil in Hy'|].
  apply elem_of_marked. exists (length pairs1), d, p'.
  split; [by apply list_lookup_middle|].
  split; [by rewrite (lookup_app_r pairs1) by lia;
             replace (S (length pairs1) - length pairs1) with 1 by lia|].
  apply StronglySorted_inv in Hasc as [_ Hp'_le].
  apply Forall_cons in Hx_le as [Hx_le _]. simpl in Hx_le.
  assert (ticks p'.1 ≤ ticks d)%Z.
  { apply elem_of_cons in Hy' as [<-|Hy']; [simpl; lia|].
    rewrite Forall_forall in Hp'_le. by apply (Hp'_le _ Hy'). }
  unfold timedelta_seconds. lia.
Qed.


End whole_search.

Section output.
Context {geojson G : Type} `{!Shapely geojson G} `{!EqDecision geojson}.
Context {payload : Type} `{!EqDecision payload}.
Context (parse : string → option datetime).

#[local] Abbreviation item := (item geojson payload).

(** C4.  Every item of the output is an item of the input, the very object
    with its very dict, and no more often in the output than in the input;
    the steps are functions of immutable values, so nothing is written to an
    item on the way. *)
Theorem output_subset_of_input aoi (response out : list item) :
  search parse aoi response = inr out →
  out ⊆+ response ∧
  ∀ y, y ∈ out → ∃ x, x ∈ response ∧ oid x = oid y ∧ dict x = dict y.
Proof.
  intros (a & dates & _ & _ & Hdates & _ & ->)%search_inr.
  assert (survivors (by_date dates (filter (λ x, kept a x = true) response))
          ⊆+ response) as Hsub.
  { unfold survivors.
    etransitivity; [apply sublist_submseteq, sublist_filter|].
    rewrite by_date_perm, snd_zip by (apply Forall2_length in Hdates; lia).
    apply sublist_submseteq, sublist_filter. }
  split; [done|]. intros y Hy. exists y. split; [|done].
  by eapply elem_of_submseteq.
Qed.

(** C5.  The output carries dates in non-decreasing order, and the sort of
    line 76 is stable.  When [search] returns, its steps have returned: the
    filter gave [results], the sort gave [sorted_results] (with their dates),
    the pass of lines 79 to 85 gave the output, a sublist of
    [sorted_results].  For every date, the items of that date stand in
    [sorted_results] exactly as they stand in [results], which is the order
    of the response: ties are left in input order.  The output shows it: of
    two items over the AOI with one date, the one that comes first in the
    response is never in the output.  ([search] is a function of the AOI and
    the response, so the same input gives the same output.) *)
Theorem output_sorted_stable aoi (response out : list item) :
  search parse aoi response = inr out →
  (∃ dates,
     Forall2 (λ x d, acquired_date parse x = inr d) out dates ∧
     ∀ i d d', dates !! i = Some d → dates !! S i = Some d' →
               (ticks d ≤ ticks d')%Z) ∧
  (∃ a results dates sorted_results,
     shape aoi = Some a ∧
     containing a response = inr results ∧
     sort_by_date parse results = inr (dates, sorted_results) ∧
     remove_duplicates dates sorted_results = inr out ∧
     out `sublist_of` sorted_results ∧
     (∀ d, filter (λ x, acquired_date parse x = inr d) sorted_results
           = filter (λ x, acquired_date parse x = inr d) results) ∧
     (∀ front x back y d,
        response = front ++ x :: back → y ∈ back → kept a y = true →
        acquired_date parse x = inr d → acquired_date parse y = inr d →
        x ∉ out)) ∧
  (∀ d, filter (λ x, acquired_date parse x = inr d) out
        `sublist_of` filter (λ x, acquired_date parse x = inr d) response).
Proof.
  intros (a & dates & Ha & Hfp & Hdates & Huni & ->)%search_inr.
  set (results := filter (λ x, kept a x = true) response) in *.
  set (pairs := by_date dates results).
  pose proof (Forall2_length _ _ _ Hdates) as Hlen.
  assert (Forall (λ p, acquired_date parse p.2 = inr p.1) pairs) as Hpairs.
  { unfold pairs. rewrite by_date_perm. by apply zip_dated. }
  assert (∀ d, filter (λ x, acquired_date parse x = inr d) pairs.*2
               = filter (λ x, acquired_date parse x = inr d) results) as Hstable.
  { intros d. rewrite filter_dated by done. unfold pairs, by_date.
    rewrite (sorted_by_stable_on _ _ (ticks d)) by (by intros p <-).
    rewrite <-(filter_dated parse) by (by apply zip_dated).
    by rewrite snd_zip by lia. }
  split; [|split].
  - rewrite survivors_pairs.
    set (left := filter (λ p, ¬ py_in p.2 (marked pairs)) pairs).
    exists left.*1. split.
    + apply dated_Forall2, Forall_forall. intros p [_ Hp]%list_elem_of_filter.
      by eapply Forall_forall in Hpairs.
    + assert (ascending ticks left.*1) as Hasc.
      { apply ascending_fmap, ascending_filter, by_date_ascending. }
      intros i d d'. by apply ascending_lookup.
  - exists a, results, pairs.*1, pairs.*2.
    split; [done|]. split; [by apply containing_inr|]. split.
    { rewrite sort_by_date_unfold. apply bind_inr. exists dates.
      split; [by apply for_each_inr|].
      apply comparable_uniform in Huni. by rewrite Huni. }
    split.
    { unfold remove_duplicates.
      by rewrite to_remove_marked by (by apply by_date_uniform). }
    split; [apply sublist_filter|]. split; [done|].
    intros front x back y d -> Hy Hk Hx Hyd [Hnot Hin]%list_elem_of_filter.
    apply Hnot, Is_true_true, py_in_elem_of.
    assert (kept a x = true) as Hkx.
    { unfold pairs in Hin. rewrite by_date_perm, snd_zip in Hin by lia.
      by apply list_elem_of_filter in Hin as [? _]. }
    apply (first_of_a_tie_marked parse results
             (filter (λ x, kept a x = true) front)
             (filter (λ x, kept a x = true) back) dates x y d); try done.
    + unfold results. by rewrite filter_app, filter_cons_True.
    + by apply list_elem_of_filter.
  - intros d. unfold survivors. rewrite filter_comm.
    etransitivity; [apply sublist_filter|]. rewrite Hstable.
    unfold results. rewrite filter_comm. apply sublist_filter.
Qed.

(** C6.  [search] run on its own output, with the same AOI, returns that
    output. *)
Theorem search_idempotent aoi (response out : list item) :
  search parse aoi response = inr out → search parse aoi out = inr out.
Proof.
  intros (a & dates & Ha & Hfp & Hdates & Huni & ->)%search_inr.
  set (results := filter (λ x, kept a x = true) response) in *.
  set (pairs := by_date dates results).
  assert (Forall (λ p, acquired_date parse p.2 = inr p.1) pairs) as Hpairs.
  { unfold pairs. rewrite by_date_perm. by apply zip_dated. }
  assert (pairs.*2 ≡ₚ results) as Hsnd.
  { unfold pairs. rewrite by_date_perm.
    by rewrite snd_zip by (apply Forall2_length in Hdates; lia). }
  assert (pairs.*1 ≡ₚ dates) as Hfst.
  { unfold pairs. rewrite by_date_perm.
    by rewrite fst_zip by (apply Forall2_length in Hdates; lia). }
  rewrite survivors_pairs.
  set (left := filter (λ p, ¬ py_in p.2 (marked pairs)) pairs).
  assert (left ⊆ pairs) as Hsub by apply list_subseteq_filter.
  rewrite (search_kept parse aoi a left.*2 left.*1); [|done|..].
  - f_equal. unfold by_date. rewrite zip_fst_snd.
    rewrite sorted_by_id by apply ascending_filter, by_date_ascending.
    apply survivors_fixed, by_date_ascending.
  - apply Forall_forall. intros x (p & -> & Hp%Hsub)%list_elem_of_fmap.
    assert (p.2 ∈ results) as [Hk _]%list_elem_of_filter; [|done].
    rewrite <-Hsnd. by apply list_elem_of_fmap_2.
  - apply dated_Forall2, Forall_forall. intros p Hp%Hsub.
    by eapply Forall_forall in Hpairs.
  - eapply uniform_subseteq; [|exact Huni].
    intros d (p & -> & Hp%Hsub)%list_elem_of_fmap.
    rewrite <-Hfst. by apply list_elem_of_fmap_2.
Qed.

End output.

(** ** Failures *)

Lemma comparable_false ds :
  comparable ds = false → ∃ d d', d ∈ ds ∧ d' ∈ ds ∧ aware d ≠ aware d'.
Proof.
  destruct ds as [|d0 ds]; [done|]. simpl.
  induction ds as [|d ds IH]; [done|]. simpl.
  destruct (Bool.eqb (aware d) (aware d0)) eqn:Hd; simpl.
  - intros (d1 & d2 & Hd1 & Hd2 & Hne)%IH.
    exists d1, d2. repeat split; [..|done].
    + apply elem_of_cons in Hd1 as [->|?]; [by left|by do 2 right].
    + apply elem_of_cons in Hd2 as [->|?]; [by left|by do 2 right].
  - intros _. exists d, d0. repeat split; [right; by left|by left|].
    by apply Bool.eqb_false_iff.
Qed.

Lemma Forall2_elem_of_l {A B : Type} (P : A → B → Prop) l k x :
  Forall2 P l k → x ∈ l → ∃ y, y ∈ k ∧ P x y.
Proof.
  induction 1 as [|x' y' l k Hxy _ IH]; [by intros ?%elem_of_nil|].
  intros [->|Hx]%elem_of_cons.
  - exists y'. split; [by left|done].
  - destruct (IH Hx) as (y & ? & ?). exists y. split; [by right|done].
Qed.

Lemma Forall2_elem_of_r {A B : Type} (P : A → B → Prop) l k y :
  Forall2 P l k → y ∈ k → ∃ x, x ∈ l ∧ P x y.
Proof.
  induction 1 as [|x' y' l k Hxy _ IH]; [by intros ?%elem_of_nil|].
  intros [->|Hy]%elem_of_cons.
  - exists x'. split; [by left|done].
  - destruct (IH Hy) as (x & ? & ?). exists x. split; [by right|done].
Qed.

Section failures.
Context {geojson G : Type} `{!Shapely geojson G} `{!EqDecision geojson}.
Context {payload : Type} `{!EqDecision payload}.
Context (parse : string → option datetime).

#[local] Abbreviation item := (item geojson payload).

Lemma footprint_inl (x : item) e : footprint x = inl e → MalformedRecord e.
Proof.
  unfold footprint, getitem, shape_of.
  destruct (geometry (dict x)) as [j|]; simpl; [|by intros [= <-]].
  destruct (shape j); [done|by intros [= <-]].
Qed.

Lemma acquired_date_inl (x : item) e :
  acquired_date parse x = inl e → MalformedRecord e.
Proof.
  unfold acquired_date, getitem.
  destruct (acquired (dict x)) as [s|]; simpl; [|by intros [= <-]].
  destruct (parse s); [done|by intros [= <-]].
Qed.

(** An item whose footprint does not contain the AOI leaves the loop of
    lines 69 to 72 without a trace. *)
Lemma containing_drop a (x : item) g l1 l2 :
  footprint x = inr g → contains g a = false →
  containing a (l1 ++ x :: l2) = containing a (l1 ++ l2).
Proof.
  intros Hg Hc. induction l1 as [|y l1 IH]; simpl.
  - rewrite Hg. simpl. destruct (containing a l2); simpl; [done|by rewrite Hc].
  - by rewrite IH.
Qed.

(** C9, amended.  With an AOI that is a geometry: [search] raises, returning
    no list at all, whenever some item of the response has no well-formed
    geometry, and whenever some item whose footprint contains the AOI has no
    parseable date; the exception is then one of a malformed record.  An item
    whose footprint does not contain the AOI is dropped before its date is
    read, whatever its date is.  Besides the malformed records, [search]
    raises only the [TypeError] of naive dates mixed with aware ones. *)
Theorem malformed_record_fails aoi a (response : list item) :
  shape aoi = Some a →
  ((∃ x e, x ∈ response ∧ footprint x = inl e) →
     ∃ e, search parse aoi response = inl e ∧ MalformedRecord e) ∧
  ((∃ x e, x ∈ response ∧ kept a x = true ∧ acquired_date parse x = inl e) →
     ∃ e, search parse aoi response = inl e ∧ MalformedRecord e) ∧
  (∀ l1 x l2 g, response = l1 ++ x :: l2 →
     footprint x = inr g → contains g a = false →
     search parse aoi response = search parse aoi (l1 ++ l2)) ∧
  (∀ e, search parse aoi response = inl e →
     (∃ x, x ∈ response ∧ footprint x = inl e) ∨
     (∃ x, x ∈ response ∧ kept a x = true ∧ acquired_date parse x = inl e) ∨
     (e = TypeError ∧
      ∃ x y d d', x ∈ response ∧ y ∈ response ∧
                  kept a x = true ∧ kept a y = true ∧
                  acquired_date parse x = inr d ∧
                  acquired_date parse y = inr d' ∧ aware d ≠ aware d')).
Proof.
  intros Ha.
  assert (∀ l : list item, search parse aoi l =
            results ← containing a l;
            dates ← for_each (acquired_date parse) results;
            if comparable dates then mret (survivors (by_date dates results))
            else raise TypeError) as Hsearch.
  { intros l. rewrite search_unfold. unfold shape_of. by rewrite Ha. }
  assert (∀ e, containing a response = inl e → MalformedRecord e) as Hbad.
  { intros e (_ & x & _ & _ & Hx & _)%containing_inl. by eapply footprint_inl. }
  repeat split.
  - intros (x & e & Hx & He). rewrite Hsearch.
    destruct (containing a response) as [e'|results] eqn:Hc; simpl; [by eauto|].
    apply containing_inr in Hc as [Hall _].
    rewrite Forall_forall in Hall. destruct (Hall x Hx) as [g Hg]. congruence.
  - intros (x & e & Hx & Hk & He). rewrite Hsearch.
    destruct (containing a response) as [e'|results] eqn:Hc; simpl; [by eauto|].
    apply containing_inr in Hc as [_ ->].
    destruct (for_each _ _) as [e'|dates] eqn:Hd; simpl.
    + exists e'. split; [done|].
      apply for_each_inl in Hd as (y & _ & Hy). by eapply acquired_date_inl.
    + apply for_each_inr in Hd.
      destruct (Forall2_elem_of_l _ _ _ x Hd) as (d & _ & Hxd); [|congruence].
      by apply list_elem_of_filter.
  - intros l1 x l2 g -> Hg Hc. rewrite !Hsearch.
    by rewrite (containing_drop a x g).
  - intros e. rewrite Hsearch.
    intros [Hc|(results & [_ ->]%containing_inr & Hrest)]%bind_inl.
    + left. apply containing_inl in Hc as (l1 & x & l2 & -> & Hx & _).
      exists x. split; [|done]. rewrite elem_of_app, elem_of_cons. auto.
    + right. apply bind_inl in Hrest as [Hd|(dates & Hd & Hcmp)].
      * left. apply for_each_inl in Hd as (x & [Hk Hx]%list_elem_of_filter & He).
        by exists x.
      * right. destruct (comparable dates) eqn:Hmix; [done|].
        injection Hcmp as <-. split; [done|].
        apply for_each_inr in Hd.
        apply comparable_false in Hmix as (d & d' & Hin & Hin' & Hne).
        destruct (Forall2_elem_of_r _ _ _ d Hd Hin)
          as (x & [Hkx Hx]%list_elem_of_filter & Hxd).
        destruct (Forall2_elem_of_r _ _ _ d' Hd Hin')
          as (y & [Hky Hy]%list_elem_of_filter & Hyd).
        by exists x, y, d, d'.
Qed.

End failures.

(** ** The containment filter *)

Section containment.
Context {geojson G : Type} `{!Shapely geojson G} `{!EqDecision geojson}.
Context {payload : Type} `{!EqDecision payload}.
Context `{!ShapelyContains geojson G}.

#[local] Abbreviation item := (item geojson payload).

(** C1, amended.  On a response whose footprints are all geometries the loop
    of lines 69 to 72 returns, and it keeps an item exactly when its footprint
    contains the AOI in shapely's sense: no point of the AOI lies in the
    exterior of the footprint, and some point of the interior of the AOI lies
    in the interior of the footprint.  To lie within or on the boundary of
    the footprint is not enough: an AOI no interior point of which is
    interior to the footprint (a point on the footprint's boundary is one) is
    not kept. *)
Theorem containment_filter (aoi : G) (response : list item) :
  Forall (λ x, ∃ g, footprint x = inr g) response →
  ∃ results,
    containing aoi response = inr results ∧
    (∀ x, x ∈ results ↔
          x ∈ response ∧ ∃ g, footprint x = inr g ∧ Contains g aoi) ∧
    (∀ x g, footprint x = inr g →
            (∀ p, interior aoi p → ¬ interior g p) → x ∉ results).
Proof.
  intros Hall. exists (filter (λ x : item, kept aoi x = true) response).
  split; [by apply containing_inr|].
  assert (∀ x : item, x ∈ filter (λ x : item, kept aoi x = true) response ↔
            x ∈ response ∧ ∃ g, footprint x = inr g ∧ Contains g aoi) as Hkept.
  { intros x. rewrite list_elem_of_filter. unfold kept. split.
    - intros [Hk Hx]. split; [done|].
      destruct (footprint x) as [|g]; [done|].
      exists g. split; [done|]. by apply contains_spec.
    - intros [Hx (g & -> & Hc)]. split; [|done]. by apply contains_spec. }
  split; [done|].
  intros x g Hg Hnone (_ & g' & Hg' & _ & p & Hp & Hpg)%Hkept.
  assert (g' = g) as -> by congruence. by apply (Hnone p).
Qed.

End containment.

(** ** The default dates *)

Lemma datetime_minus_inr (a : datetime) (d : timedelta) :
  (datetime_min ≤ ticks a - d ≤ datetime_max)%Z →
  datetime_minus a d = inr (DateTime (ticks a - d) (aware a)).
Proof. intros Hrange. unfold datetime_minus. by rewrite bool_decide_eq_true_2. Qed.

Lemma datetime_minus_inl (a : datetime) (d : timedelta) :
  ¬ (datetime_min ≤ ticks a - d ≤ datetime_max)%Z →
  datetime_minus a d = inl OverflowError.
Proof. intros Hrange. unfold datetime_minus. by rewrite bool_decide_eq_false_2. Qed.

Section defaults.
Context {geojson G : Type} `{!Shapely geojson G} `{!EqDecision geojson}.
Context {payload : Type} `{!EqDecision payload}.
Context (parse : string → option datetime).
Context {api_error : Type}.
Context (quick_search : request geojson → api_error + list (item geojson payload)).

#[local] Abbreviation run := (search_with_client parse quick_search).


End defaults.

(** ** The argument checks *)

(** C10.  Without [--geom], a latitude of zero with whatever longitude, and a
    longitude of zero with whatever latitude, end in the usage error 'either
    --geom or {--lat, --lon} must be defined', both coordinates given or
    not. *)
Theorem zero_coordinate_rejected {geojson : Type} (a : args geojson)
    (q : Q) (other : option Q) :
  geom a = None → (q == 0)%Q →
  (lat a = Some q ∧ lon a = other) ∨ (lat a = other ∧ lon a = Some q) →
  check_args a = inl MustBeDefined.
Proof.
  intros Hgeom Hq%Qeq_bool_iff. unfold check_args. rewrite Hgeom. simpl.
  intros [[-> _]|[_ ->]]; simpl; rewrite Hq; simpl; [done|].
  by rewrite orb_true_r.
Qed.

(** ** The fixtures *)

Section rectilinear_facts.
Import Rectilinear.
Open Scope Q_scope.

Lemma within_Pt x y (p : point) :
  within (Pt x y) p ↔ p.1 == inject_Z x ∧ p.2 == inject_Z y.
Proof. unfold within. simpl. tauto. Qed.

Lemma within_Box x y w h (p : point) :
  within (Box x y w h) p ↔
  inject_Z x <= p.1 ∧ p.1 <= inject_Z (x + Z.pos w) ∧
  inject_Z y <= p.2 ∧ p.2 <= inject_Z (y + Z.pos h).
Proof.
  unfold within. simpl. split.
  - intros [(?&?&?&?)|[? _]]; [|done]. repeat split; lra.
  - intros (H1 & H2 & H3 & H4).
    destruct (Qlt_le_dec (inject_Z x) p.1);
      [|right; split; [done|left; lra]].
    destruct (Qlt_le_dec p.1 (inject_Z (x + Z.pos w)));
      [|right; split; [done|right; left; lra]].
    destruct (Qlt_le_dec (inject_Z y) p.2);
      [|right; split; [done|right; right; left; lra]].
    destruct (Qlt_le_dec p.2 (inject_Z (y + Z.pos h)));
      [|right; split; [done|right; right; right; lra]].
    by left.
Qed.

Lemma side_positive (x : Z) (w : positive) : inject_Z x < inject_Z (x + Z.pos w).
Proof. rewrite <-Zlt_Qlt. lia. Qed.

(** The rectilinear [contains] is the containment of shapely's manual. *)
Lemma rect_contains_spec (a b : geom) : contains a b = true ↔ Contains a b.
Proof.
  unfold Contains, exterior.
  destruct a as [x y|x y w h], b as [x' y'|x' y' w' h']; simpl;
    rewrite ?bool_decide_eq_true.
  - split.
    + intros [-> ->]. split; [tauto|].
      exists (inject_Z x', inject_Z y'). simpl. repeat split; apply Qeq_refl.
    + intros [_ (p & [H1 H2] & [H3 H4])].
      rewrite H1 in H3. rewrite H2 in H4.
      unfold Qeq in H3, H4. simpl in H3, H4. lia.
  - split; [done|]. intros [Hall _].
    pose proof (side_positive x' w') as Hw. exfalso.
    apply (Hall (inject_Z x', inject_Z y')).
    { apply within_Box. simpl. pose proof (side_positive y' h'). lra. }
    intros [Hx _]%within_Pt.
    apply (Hall (inject_Z (x' + Z.pos w'), inject_Z y')).
    { apply within_Box. simpl. pose proof (side_positive y' h'). lra. }
    intros [Hx' _]%within_Pt. simpl in *. lra.
  - rewrite !Zlt_Qlt. split.
    + intros Hin. split.
      * intros p [Hp1 Hp2]%within_Pt Hext. apply Hext. left. simpl. lra.
      * exists (inject_Z x', inject_Z y'). simpl. lra.
    + intros [_ ([p1 p2] & [H1 H2] & Hint)]. simpl in *. lra.
  - rewrite !Zle_Qle. split.
    + intros Hin.
      pose proof (side_positive x' w'). pose proof (side_positive y' h').
      split.
      * intros p Hp%within_Box Hext. apply Hext, within_Box. lra.
      * exists ((inject_Z x' + inject_Z (x' + Z.pos w')) * (1 # 2),
                (inject_Z y' + inject_Z (y' + Z.pos h')) * (1 # 2)).
        simpl. lra.
    + intros [Hall _].
      pose proof (side_positive x' w'). pose proof (side_positive y' h').
      assert (¬ ¬ (inject_Z x <= inject_Z x' ∧ inject_Z y <= inject_Z y')) as H1.
      { intros Hno. apply (Hall (inject_Z x', inject_Z y')).
        - apply within_Box. simpl. lra.
        - intros Hw%within_Box. simpl in Hw. apply Hno. lra. }
      assert (¬ ¬ (inject_Z (x' + Z.pos w') <= inject_Z (x + Z.pos w) ∧
                   inject_Z (y' + Z.pos h') <= inject_Z (y + Z.pos h))) as H2.
      { intros Hno.
        apply (Hall (inject_Z (x' + Z.pos w'), inject_Z (y' + Z.pos h'))).
        - apply within_Box. simpl. lra.
        - intros Hw%within_Box. simpl in Hw. apply Hno. lra. }
      destruct (Qlt_le_dec (inject_Z x') (inject_Z x)); [exfalso; apply H1; lra|].
      destruct (Qlt_le_dec (inject_Z y') (inject_Z y)); [exfalso; apply H1; lra|].
      destruct (Qlt_le_dec (inject_Z (x + Z.pos w)) (inject_Z (x' + Z.pos w')));
        [exfalso; apply H2; lra|].
      destruct (Qlt_le_dec (inject_Z (y + Z.pos h)) (inject_Z (y' + Z.pos h')));
        [exfalso; apply H2; lra|].
      done.
Qed.

End rectilinear_facts.

#[global] Instance rect_shapely_contains :
  ShapelyContains Rectilinear.geojson Rectilinear.geom := rect_contains_spec.

Section examples.
Import Rectilinear Fixture.

(** C1 as worded fails here: every point of the AOI, the point (0, 2), lies
    on the boundary of the footprint, the square from (0, 0) to (4, 4); the
    loop drops the item and [search] returns nothing. *)
Lemma point_on_boundary_dropped :
  footprint at_T = inr (Box 0 0 4 4) ∧
  shape edge_point = Some (Pt 0 2) ∧
  boundary (Box 0 0 4 4) (0, 2)%Q ∧
  Covers (Box 0 0 4 4) (Pt 0 2) ∧
  containing (Pt 0 2) [at_T] = inr [] ∧
  search Calendar.parse edge_point [at_T] = inr [].
Proof.
  split; [reflexivity|]. split; [reflexivity|]. split; [|split].
  - simpl. unfold Qle, Qeq. simpl. lia.
  - intros [p1 p2] [H1 H2]%within_Pt. apply within_Box.
    unfold Qle, Qeq in *. simpl in *. lia.
  - split; reflexivity.
Qed.

Lemma containment_filter_witness :
  ∃ results,
    containing (Box 1 1 2 2) [at_T; far_garbled] = inr results ∧
    (∀ x, x ∈ results ↔
          x ∈ [at_T; far_garbled] ∧
          ∃ g, footprint x = inr g ∧ Contains g (Box 1 1 2 2)) ∧
    (∀ x g, footprint x = inr g →
            (∀ p, interior (Box 1 1 2 2) p → ¬ interior g p) → x ∉ results).
Proof.
  apply (containment_filter (Box 1 1 2 2) [at_T; far_garbled]).
  repeat constructor; eexists; reflexivity.
Defined.

Lemma near_duplicates_marked_witness :
  (∃ marked out,
     to_remove [dT; d120; d400] [at_T; at_120; at_400] = inr marked ∧
     remove_duplicates [dT; d120; d400] [at_T; at_120; at_400] = inr out ∧
     (∀ r, r ∈ marked ↔
        ∃ i d d', [at_T; at_120; at_400] !! i = Some r ∧
                  [dT; d120; d400] !! i = Some d ∧
                  [dT; d120; d400] !! S i = Some d' ∧
                  (ticks d' - ticks d < timedelta_seconds 300)%Z) ∧
     (∀ r, r ∈ marked → r ∉ out)) ∧
  search Calendar.parse aoi [at_400; at_T; at_120] = inr [at_400].
Proof.
  split.
  - apply (proj1 (near_duplicates_marked Calendar.parse)); [reflexivity|].
    apply comparable_uniform. reflexivity.
  - apply (proj2 (near_duplicates_marked Calendar.parse)
             aoi (Box 1 1 2 2) at_T at_120 at_400 Calendar.T true);
      try reflexivity.
    apply (Permutation_app_comm [at_400] [at_T; at_120]).
Defined.

(** C3.  Where the code leaves the claim: two items of one content over the
    AOI (one scene returned twice), taken at the same time.  The pass of
    lines 81 to 83 marks the first of them only, and the second is the last
    of the sort order; line 85 drops it all the same, for it equals the
    marked one, and the output is empty.  Two items of that very time that
    differ in a field end as the claim has it: the later one is returned. *)
Theorem equal_records_both_removed :
  dict at_T_again = dict at_T ∧ oid at_T_again ≠ oid at_T ∧
  sort_by_date Calendar.parse [at_T; at_T_again]
    = inr ([dT; dT], [at_T; at_T_again]) ∧
  last [at_T; at_T_again] = Some at_T_again ∧
  to_remove [dT; dT] [at_T; at_T_again] = inr [at_T] ∧
  remove_duplicates [dT; dT] [at_T; at_T_again] = inr [] ∧
  search Calendar.parse aoi [at_T; at_T_again] = inr [] ∧
  to_remove [dT; dT] [at_T; at_T_other] = inr [at_T] ∧
  remove_duplicates [dT; dT] [at_T; at_T_other] = inr [at_T_other] ∧
  search Calendar.parse aoi [at_T; at_T_other] = inr [at_T_other].
Proof. repeat split; try (vm_compute; reflexivity). discriminate. Qed.

Lemma last_record_witness :
  (∃ marked,
     to_remove [dT; d120; d600] [at_T; at_120; at_600] = inr marked ∧
     (∀ m, m ∈ marked → ∃ i, [at_T; at_120; at_600] !! i = Some m ∧ S i < 3) ∧
     (at_600 ∈ [at_120; at_600] ↔ ∀ m, m ∈ marked → dict m ≠ dict at_600)) ∧
  search Calendar.parse aoi [at_T] = inr [at_T].
Proof.
  split.
  - apply (proj1 (last_record_kept_unless_equal Calendar.parse)
             [dT; d120; d600] [at_T; at_120; at_600] [at_120; at_600] at_600);
      reflexivity.
  - apply (proj2 (last_record_kept_unless_equal Calendar.parse)
             aoi (Box 1 1 2 2) at_T dT); reflexivity.
Defined.

Lemma removal_is_by_value_witness :
  ∃ marked,
    to_remove [dT; dT; d600] [at_T; at_T_again; at_600] = inr marked ∧
    (∀ r, r ∈ [at_600] ↔
          r ∈ [at_T; at_T_again; at_600] ∧ ∀ m, m ∈ marked → dict m ≠ dict r) ∧
    (∀ i j m r d d',
       [at_T; at_T_again; at_600] !! i = Some m →
       [dT; dT; d600] !! i = Some d → [dT; dT; d600] !! S i = Some d' →
       (ticks d' - ticks d < timedelta_seconds 300)%Z →
       [at_T; at_T_again; at_600] !! j = Some r → dict r = dict m →
       r ∉ [at_600]).
Proof.
  apply (removal_is_by_value [dT; dT; d600] [at_T; at_T_again; at_600] [at_600]);
    reflexivity.
Defined.

Lemma output_subset_of_input_witness :
  [at_400] ⊆+ [at_400; far_undated; at_T; at_120] ∧
  ∀ y, y ∈ [at_400] →
       ∃ x, x ∈ [at_400; far_undated; at_T; at_120] ∧
            oid x = oid y ∧ dict x = dict y.
Proof.
  apply (output_subset_of_input Calendar.parse aoi
           [at_400; far_undated; at_T; at_120] [at_400]).
  reflexivity.
Defined.

Lemma output_sorted_stable_witness :
  (∃ dates,
     Forall2 (λ x d, acquired_date Calendar.parse x = inr d) [at_T; at_600] dates ∧
     ∀ i d d', dates !! i = Some d → dates !! S i = Some d' →
               (ticks d ≤ ticks d')%Z) ∧
  (∃ a results dates sorted_results,
     shape aoi = Some a ∧
     containing a [at_T_other; at_600; at_T] = inr results ∧
     sort_by_date Calendar.parse results = inr (dates, sorted_results) ∧
     remove_duplicates dates sorted_results = inr [at_T; at_600] ∧
     [at_T; at_600] `sublist_of` sorted_results ∧
     (∀ d, filter (λ x, acquired_date Calendar.parse x = inr d) sorted_results
           = filter (λ x, acquired_date Calendar.parse x = inr d) results) ∧
     (∀ front x back y d,
        [at_T_other; at_600; at_T] = front ++ x :: back → y ∈ back →
        kept a y = true →
        acquired_date Calendar.parse x = inr d →
        acquired_date Calendar.parse y = inr d →
        x ∉ [at_T; at_600])) ∧
  (∀ d, filter (λ x, acquired_date Calendar.parse x = inr d) [at_T; at_600]
        `sublist_of`
        filter (λ x, acquired_date Calendar.parse x = inr d)
          [at_T_other; at_600; at_T]).
Proof.
  apply (output_sorted_stable Calendar.parse aoi
           [at_T_other; at_600; at_T] [at_T; at_600]).
  reflexivity.
Defined.

(** The order of a tie in the response decides which of the two items is
    returned: the later one. *)
Example tie_order_matters :
  search Calendar.parse aoi [at_T_other; at_T] = inr [at_T] ∧
  search Calendar.parse aoi [at_T; at_T_other] = inr [at_T_other] ∧
  sort_by_date Calendar.parse [at_T_other; at_600; at_T]
  = inr ([dT; dT; d600], [at_T_other; at_T; at_600]).
Proof. repeat split; vm_compute; reflexivity. Qed.

Lemma search_idempotent_witness :
  search Calendar.parse aoi [at_400] = inr [at_400].
Proof.
  apply (search_idempotent Calendar.parse aoi [at_T; at_120; at_400] [at_400]).
  reflexivity.
Defined.

(** C9 as worded fails here: one item has no date and another a date that
    does not parse; neither footprint contains the AOI, and [search] returns
    the one item that is left. *)
Lemma unparseable_records_skipped :
  acquired_date Calendar.parse far_undated = inl (KeyError "acquired") ∧
  acquired_date Calendar.parse far_garbled = inl ParserError ∧
  search Calendar.parse aoi [far_undated; at_T; far_garbled] = inr [at_T].
Proof. repeat split; vm_compute; reflexivity. Qed.

Lemma malformed_record_fails_witness :
  (∃ e, search Calendar.parse aoi [at_T; shapeless] = inl e ∧ MalformedRecord e) ∧
  (∃ e, search Calendar.parse aoi [at_T; near_undated] = inl e ∧ MalformedRecord e).
Proof.
  split.
  - destruct (malformed_record_fails Calendar.parse
                 aoi (Box 1 1 2 2) [at_T; shapeless]) as (Hfails & _);
      [reflexivity|]. apply Hfails.
    exists shapeless, (KeyError "geometry"). split; [|reflexivity].
    right. left.
  - destruct (malformed_record_fails Calendar.parse
                 aoi (Box 1 1 2 2) [at_T; near_undated]) as (_ & Hfails & _);
      [reflexivity|]. apply Hfails.
    exists near_undated, (KeyError "acquired").
    split; [|split; reflexivity]. right. left.
Defined.

(** The scenarios B, D and E of the specification, and a response that
    mixes an aware date with a naive one. *)
Example scenario_partial_overlap :
  search Calendar.parse aoi
    [Item 11 (scene_of (Rectangle 2 2 4 4) "2017-06-01T10:00:00Z" "j"); at_600]
  = inr [at_600].
Proof. vm_compute. reflexivity. Qed.

Example scenario_far_apart :
  search Calendar.parse aoi [at_600; at_T] = inr [at_T; at_600].
Proof. vm_compute. reflexivity. Qed.

Example scenario_empty :
  search Calendar.parse aoi ([] : list (item geojson string)) = inr [].
Proof. vm_compute. reflexivity. Qed.

Example naive_and_aware : search Calendar.parse aoi [at_T; naive] = inl TypeError.
Proof. vm_compute. reflexivity. Qed.



Lemma zero_coordinate_rejected_witness :
  check_args on_equator = inl MustBeDefined.
Proof.
  apply (zero_coordinate_rejected on_equator 0%Q (Some 5%Q)).
  - reflexivity.
  - reflexivity.
  - left. split; reflexivity.
Defined.

End examples.

(** * Part III: more of what [search] does *)

Lemma ascending_lookup_le {A : Type} (key : A → Z) (l : list A) i j x y :
  ascending key l → i ≤ j → l !! i = Some x → l !! j = Some y →
  (key x ≤ key y)%Z.
Proof.
  intros Hasc. revert i j. induction Hasc as [|a l _ IH Ha]; intros i j; [done|].
  destruct i as [|i], j as [|j]; simpl; try lia.
  - by intros _ [= ->] [= ->].
  - intros _ [= ->] Hy%list_elem_of_lookup_2.
    rewrite Forall_forall in Ha. by apply Ha.
  - intros Hij. apply IH. lia.
Qed.

Lemma filter_id_Forall {A : Type} (P : A → Prop) `{!∀ a, Decision (P a)}
    (l : list A) :
  filter P l = l → Forall P l.
Proof.
  intros Heq. apply Forall_forall. intros x Hx.
  destruct (decide (P x)) as [|Hn]; [done|].
  pose proof (length_filter_lt P l x Hx Hn) as Hlt. rewrite Heq in Hlt. lia.
Qed.

Section more_of_search.
Context {geojson G : Type} `{!Shapely geojson G} `{!EqDecision geojson}.
Context {payload : Type} `{!EqDecision payload}.
Context (parse : string → option datetime).

#[local] Abbreviation item := (item geojson payload).

(** Neighbours at least 300 seconds apart, all of them, is [marked] being
    empty. *)
Lemma marked_nil_iff (pairs : list (datetime * item)) :
  marked pairs = [] ↔
  ∀ i p p', pairs !! i = Some p → pairs !! S i = Some p' →
            (timedelta_seconds 300 ≤ ticks p'.1 - ticks p.1)%Z.
Proof.
  split.
  - intros Hnil i [d r] p' Hi Hi'. simpl.
    destruct (Z.lt_ge_cases (ticks p'.1 - ticks d) (timedelta_seconds 300))
      as [Hlt|]; [|done].
    assert (r ∈ marked pairs) as Hr.
    { apply elem_of_marked. by exists i, d, p'. }
    rewrite Hnil in Hr. by apply elem_of_nil in Hr.
  - intros Hgaps. apply elem_of_nil_inv.
    intros r (i & d & p' & Hi & Hi' & Hlt)%elem_of_marked.
    specialize (Hgaps i (d, r) p' Hi Hi'). simpl in Hgaps. lia.
Qed.

(** When [search] raises. *)
Lemma search_inl aoi (response : list item) e :
  search parse aoi response = inl e →
  (shape aoi = None ∧ e = ShapeError) ∨
  ∃ a, shape aoi = Some a ∧
    ((∃ x, x ∈ response ∧ footprint x = inl e) ∨
     (∃ x, x ∈ response ∧ kept a x = true ∧ acquired_date parse x = inl e) ∨
     (e = TypeError ∧
      ∃ dates, Forall2 (λ x d, acquired_date parse x = inr d)
                 (filter (λ x, kept a x = true) response) dates ∧
               ¬ uniform dates)).
Proof.
  rewrite search_unfold. unfold shape_of.
  destruct (shape aoi) as [a|]; simpl; [|intros [= <-]; by left].
  intros He. right. exists a. split; [done|].
  apply bind_inl in He as [Hc|(results & [_ ->]%containing_inr & Hrest)].
  - left. apply containing_inl in Hc as (l1 & x & l2 & -> & Hx & _).
    exists x. split; [|done]. rewrite elem_of_app, elem_of_cons. auto.
  - right. apply bind_inl in Hrest as [Hd|(dates & Hd & Hcmp)].
    + left. apply for_each_inl in Hd as (x & [Hk Hx]%list_elem_of_filter & He).
      by exists x.
    + right. destruct (comparable dates) eqn:Hmix; [done|].
      injection Hcmp as <-. split; [done|]. exists dates.
      split; [by apply for_each_inr|].
      rewrite <-comparable_uniform. by rewrite Hmix.
Qed.

(** X1.  [search] returns a list or raises the exception of a malformed AOI or
    record, or the [TypeError] of the sort: never an [IndexError], the read
    of [dates[i+1]] on line 82 being always in range. *)
Theorem search_raises_only aoi (response : list item) :
  (∃ out, search parse aoi response = inr out) ∨
  (∃ e, search parse aoi response = inl e ∧ (MalformedRecord e ∨ e = TypeError)).
Proof.
  destruct (search parse aoi response) as [e|out] eqn:Hs; [|left; by exists out].
  right. exists e. split; [done|].
  apply search_inl in Hs as [[_ ->]|(a & _ & [(x & _ & Hx)|[(x & _ & _ & Hx)|[-> _]]])].
  - by left.
  - left. exact (footprint_inl x e Hx).
  - left. exact (acquired_date_inl parse x e Hx).
  - by right.
Qed.

(** X2.  The exception [search] raises is decided in the order of the source:
    a malformed AOI first, whatever the response holds; then the first item
    of the response whose footprint is malformed, whatever the dates are. *)
Theorem first_failure_wins aoi (response : list item) :
  (shape aoi = None → search parse aoi response = inl ShapeError) ∧
  (∀ a l1 x l2 e,
     shape aoi = Some a → response = l1 ++ x :: l2 →
     Forall (λ y, ∃ g, footprint y = inr g) l1 → footprint x = inl e →
     search parse aoi response = inl e).
Proof.
  split.
  - intros Hnone. unfold search, shape_of. by rewrite Hnone.
  - intros a l1 x l2 e Ha -> Hl1 Hx. unfold search, shape_of. rewrite Ha. simpl.
    assert (containing a (l1 ++ x :: l2) = inl e) as ->; [|done].
    apply containing_inl. by exists l1, x, l2.
Qed.

(** X3.  Every item of the output has a footprint that contains the AOI and a
    date that parses. *)
Theorem output_contains_aoi aoi a (response out : list item) :
  shape aoi = Some a →
  search parse aoi response = inr out →
  ∀ x, x ∈ out →
       (∃ g, footprint x = inr g ∧ contains g a = true) ∧
       (∃ d, acquired_date parse x = inr d).
Proof.
  intros Ha (a' & dates & Ha' & _ & Hdates & _ & ->)%search_inr x Hx.
  assert (a' = a) as -> by congruence.
  assert (x ∈ filter (λ x : item, kept a x = true) response) as Hres.
  { unfold survivors in Hx. apply list_elem_of_filter in Hx as [_ Hx].
    rewrite by_date_perm, snd_zip in Hx
      by (apply Forall2_length in Hdates; lia). done. }
  split.
  - apply list_elem_of_filter in Hres as [Hk _]. unfold kept in Hk.
    destruct (footprint x) as [|g]; [done|]. by exists g.
  - destruct (Forall2_elem_of_l _ _ _ x Hdates Hres) as (d & _ & Hd). eauto.
Qed.

(** X4.  Any two items of the output are at least 300 seconds apart, not the
    neighbours only. *)
Theorem output_gaps aoi (response out : list item) :
  search parse aoi response = inr out →
  ∃ dates,
    Forall2 (λ x d, acquired_date parse x = inr d) out dates ∧
    ∀ i j d d', i < j → dates !! i = Some d → dates !! j = Some d' →
                (timedelta_seconds 300 ≤ ticks d' - ticks d)%Z.
Proof.
  intros (a & dates & _ & _ & Hdates & _ & ->)%search_inr.
  set (results := filter (λ x, kept a x = true) response) in *.
  set (pairs := by_date dates results).
  assert (Forall (λ p, acquired_date parse p.2 = inr p.1) pairs) as Hpairs.
  { unfold pairs. rewrite by_date_perm. by apply zip_dated. }
  rewrite survivors_pairs.
  set (left := filter (λ p, ¬ py_in p.2 (marked pairs)) pairs).
  assert (ascending (λ p, ticks p.1) left) as Hasc
    by apply ascending_filter, by_date_ascending.
  assert (marked left = []) as Hnil.
  { apply marked_filter_nil; [apply by_date_ascending|].
    intros p _ Hp Hm. apply Hp. by rewrite py_in_elem_of. }
  exists left.*1. split.
  - apply dated_Forall2, Forall_forall. intros p [_ Hp]%list_elem_of_filter.
    by eapply Forall_forall in Hpairs.
  - intros i j d d' Hij Hi Hj. rewrite list_lookup_fmap in Hi, Hj.
    destruct (left !! i) as [p|] eqn:Hpi; [|done].
    destruct (left !! j) as [q|] eqn:Hpj; [|done].
    injection Hi as <-. injection Hj as <-.
    destruct (left !! S i) as [p'|] eqn:Hpi'.
    + pose proof (proj1 (marked_nil_iff left) Hnil i p p' Hpi Hpi') as Hgap.
      pose proof (ascending_lookup_le _ left (S i) j p' q Hasc ltac:(lia) Hpi' Hpj).
      simpl in *. lia.
    + apply lookup_ge_None in Hpi'. apply lookup_lt_Some in Hpj. lia.
Qed.

(** X5.  [search] looks at the items that contain the AOI only: on a response
    whose footprints are all geometries, it returns what it returns on the
    response without the items that do not contain the AOI. *)
Theorem search_of_containing aoi a (response : list item) :
  shape aoi = Some a →
  Forall (λ x, ∃ g, footprint x = inr g) response →
  search parse aoi response
  = search parse aoi (filter (λ x, kept a x = true) response).
Proof.
  intros Ha Hall. rewrite !search_unfold. unfold shape_of. rewrite Ha. simpl.
  assert (containing a response
          = inr (filter (λ x : item, kept a x = true) response)) as ->
    by (by apply containing_inr).
  rewrite containing_all_kept; [done|].
  apply Forall_forall. by intros x [Hk _]%list_elem_of_filter.
Qed.

End more_of_search.

Section more_of_the_steps.
Context {geojson G : Type} `{!Shapely geojson G} `{!EqDecision geojson}.
Context {payload : Type} `{!EqDecision payload}.
Context (parse : string → option datetime).

#[local] Abbreviation item := (item geojson payload).

(** X6.  Lines 75 to 77 sort the results through the pairs and the dates on
    their own, and the two stay aligned: when the step returns, the results
    are the input in another order, [dates[i]] is the date of [results[i]]
    at every index, and the dates ascend.  The step returns exactly when
    every result has a date that parses and the dates are of one kind. *)
Theorem sort_by_date_aligned (results : list item) :
  (∀ dates sorted_results,
     sort_by_date parse results = inr (dates, sorted_results) →
     sorted_results ≡ₚ results ∧
     Forall2 (λ x d, acquired_date parse x = inr d) sorted_results dates ∧
     ∀ i d d', dates !! i = Some d → dates !! S i = Some d' →
               (ticks d ≤ ticks d')%Z) ∧
  ((∃ sorted, sort_by_date parse results = inr sorted) ↔
   ∃ dates, Forall2 (λ x d, acquired_date parse x = inr d) results dates ∧
            uniform dates).
Proof.
  rewrite sort_by_date_unfold. split.
  - intros dates sorted_results
      (ds & Hds%for_each_inr & Hrest)%bind_inr.
    destruct (comparable ds); [|done]. injection Hrest as <- <-.
    pose proof (Forall2_length _ _ _ Hds) as Hlen.
    split; [|split].
    + by rewrite by_date_perm, snd_zip by lia.
    + apply dated_Forall2. rewrite by_date_perm. by apply zip_dated.
    + intros i d d'. apply ascending_lookup, ascending_fmap, by_date_ascending.
  - split.
    + intros (sorted & (ds & Hds%for_each_inr & Hrest)%bind_inr).
      exists ds. split; [done|]. apply comparable_uniform.
      by destruct (comparable ds).
    + intros (ds & Hds%for_each_inr & Huni%comparable_uniform).
      rewrite Hds. simpl. rewrite Huni. by eexists.
Qed.

(** X7.  The near-duplicate pass returns the results as they are exactly when
    no date is less than 300 seconds before the next one. *)
Theorem nothing_removed_iff (dates : list datetime) (results : list item) :
  length dates = length results → uniform dates →
  remove_duplicates dates results = inr results ↔
  ∀ i d d', dates !! i = Some d → dates !! S i = Some d' →
            (timedelta_seconds 300 ≤ ticks d' - ticks d)%Z.
Proof.
  intros Hlen Huni. unfold remove_duplicates.
  rewrite (to_remove_uniform dates results Hlen Huni). simpl.
  assert (marked (zip dates results) = [] ↔
          ∀ i d d', dates !! i = Some d → dates !! S i = Some d' →
                    (timedelta_seconds 300 ≤ ticks d' - ticks d)%Z) as <-.
  { split.
    - intros Hnil i d d' Hd Hd'.
      destruct (Z.lt_ge_cases (ticks d' - ticks d) (timedelta_seconds 300))
        as [Hlt|]; [|done].
      destruct (results !! i) as [r|] eqn:Hr.
      + assert (r ∈ marked (zip dates results)) as Hin.
        { apply elem_of_marked_zip; [done|]. by exists i, d, d'. }
        rewrite Hnil in Hin. by apply elem_of_nil in Hin.
      + apply lookup_ge_None in Hr. apply lookup_lt_Some in Hd. lia.
    - intros Hgaps. apply elem_of_nil_inv.
      intros r (i & d & d' & _ & Hd & Hd' & Hlt)%elem_of_marked_zip; [|done].
      specialize (Hgaps i d d' Hd Hd'). lia. }
  split.
  - intros [= Hid]. apply filter_id_Forall in Hid.
    apply elem_of_nil_inv. intros m Hm.
    assert (m ∈ results) as Hin.
    { apply elem_of_marked_zip in Hm as (i & _ & _ & Hi & _); [|done].
      by eapply list_elem_of_lookup_2. }
    rewrite Forall_forall in Hid. apply (Hid m Hin). by rewrite py_in_elem_of.
  - intros ->. f_equal. apply filter_all, Forall_forall. intros r _ Hr. exact Hr.
Qed.

Lemma survives_by_position (dates : list datetime) (results : list item) i r :
  length dates = length results →
  NoDup (dict <$> results) →
  results !! i = Some r →
  r ∈ filter (λ r, ¬ py_in r (marked (zip dates results))) results ↔
  ∀ d d', dates !! i = Some d → dates !! S i = Some d' →
          (timedelta_seconds 300 ≤ ticks d' - ticks d)%Z.
Proof.
  intros Hlen Hnodup Hi. rewrite list_elem_of_filter. split.
  - intros [Hnot _] d d' Hd Hd'.
    destruct (Z.lt_ge_cases (ticks d' - ticks d) (timedelta_seconds 300))
      as [Hlt|]; [|done].
    exfalso. apply Hnot. rewrite py_in_elem_of; [done|].
    apply elem_of_marked_zip; [done|]. by exists i, d, d'.
  - intros Hgap. split; [|by eapply list_elem_of_lookup_2].
    intros (m & (j & d & d' & Hj & Hd & Hd' & Hlt)%elem_of_marked_zip
              & Heq)%Is_true_true%py_in_spec; [|done].
    assert (j = i) as ->.
    { eapply NoDup_lookup; [exact Hnodup|..];
        rewrite list_lookup_fmap; [by rewrite Hj|by rewrite Hi, Heq]. }
    specialize (Hgap d d' Hd Hd'). lia.
Qed.

(** X8.  When no two results have the same content, the pass drops by
    position: the item at an index is in the output exactly when its date is
    not less than 300 seconds before the next one.  The last item then
    stays. *)
Theorem distinct_contents_by_position (dates : list datetime)
    (results out : list item) :
  length dates = length results →
  NoDup (dict <$> results) →
  remove_duplicates dates results = inr out →
  (∀ i r, results !! i = Some r →
     (r ∈ out ↔
      ∀ d d', dates !! i = Some d → dates !! S i = Some d' →
              (timedelta_seconds 300 ≤ ticks d' - ticks d)%Z)) ∧
  (∀ r, last results = Some r → r ∈ out).
Proof.
  intros Hlen Hnodup (m & ->%to_remove_inr & [= <-])%bind_inr; [|done].
  split; [intros i r Hi; by apply survives_by_position|].
  intros r Hlast. rewrite last_lookup in Hlast.
  apply (survives_by_position dates results _ r Hlen Hnodup Hlast).
  intros d d' _ Hd'%lookup_lt_Some.
  destruct results; simpl in *; [done|lia].
Qed.

(** X9.  A chain: when every date is less than 300 seconds before the next
    one, the dates are of one kind and no two results have the same content,
    the pass returns the last result alone. *)
Theorem chain_keeps_the_last (dates : list datetime) (results : list item) r :
  length dates = length results →
  uniform dates →
  NoDup (dict <$> results) →
  (∀ i d d', dates !! i = Some d → dates !! S i = Some d' →
             (ticks d' - ticks d < timedelta_seconds 300)%Z) →
  last results = Some r →
  remove_duplicates dates results = inr [r].
Proof.
  intros Hlen Huni Hnodup Hchain Hlast. unfold remove_duplicates.
  rewrite (to_remove_uniform dates results Hlen Huni). simpl. f_equal.
  assert (r ∈ filter (λ r, ¬ py_in r (marked (zip dates results))) results)
    as Hr.
  { rewrite last_lookup in Hlast.
    apply (survives_by_position dates results _ r Hlen Hnodup Hlast).
    intros d d' _ Hd'%lookup_lt_Some.
    destruct results; simpl in *; [done|lia]. }
  apply last_Some in Hlast as [front Hfront].
  remember (marked (zip dates results)) as M eqn:HM.
  rewrite Hfront in Hr |- *. rewrite filter_app in Hr |- *.
  assert (filter (λ r, ¬ py_in r M) front = []) as Hnil.
  { apply elem_of_nil_inv. intros x [Hnot Hx]%list_elem_of_filter.
    apply list_elem_of_lookup_1 in Hx as [i Hi].
    assert (results !! i = Some x) as Hi'
      by (rewrite Hfront; by apply lookup_app_l_Some).
    assert (S i < length dates) as Hlt.
    { apply lookup_lt_Some in Hi. rewrite Hlen, Hfront, length_app. simpl. lia. }
    destruct (lookup_lt_is_Some_2 dates i) as [d Hd]; [lia|].
    destruct (lookup_lt_is_Some_2 dates (S i)) as [d' Hd']; [lia|].
    apply Hnot. rewrite py_in_elem_of; [done|].
    rewrite HM. apply elem_of_marked_zip; [done|]. exists i, d, d'. eauto. }
  rewrite Hnil in Hr |- *. simpl in *. rewrite filter_cons, filter_nil in Hr |- *.
  by case_decide; [|apply elem_of_nil in Hr].
Qed.

End more_of_the_steps.

Lemma NoDup_fmap_eq {A B : Type} (f : A → B) (l : list A) x y :
  NoDup (f <$> l) → x ∈ l → y ∈ l → f x = f y → x = y.
Proof.
  intros Hnd [i Hi]%list_elem_of_lookup_1 [j Hj]%list_elem_of_lookup_1 Heq.
  assert (i = j) as ->; [|congruence].
  eapply NoDup_lookup; [exact Hnd|..]; rewrite list_lookup_fmap;
    [by rewrite Hi|by rewrite Hj, Heq].
Qed.

Section order_of_the_response.
Context {geojson G : Type} `{!Shapely geojson G} `{!EqDecision geojson}.
Context {payload : Type} `{!EqDecision payload}.
Context (parse : string → option datetime).

#[local] Abbreviation item := (item geojson payload).

Lemma zip_stamp (results : list item) dates :
  Forall2 (λ x d, acquired_date parse x = inr d) results dates →
  zip dates results = stamp parse <$> results.
Proof.
  induction 1 as [|x d l ds Hx _ IH]; [done|].
  simpl. rewrite IH. unfold stamp at 2. by rewrite Hx.
Qed.

Lemma dates_stamp (results : list item) dates :
  Forall2 (λ x d, acquired_date parse x = inr d) results dates →
  dates = (stamp parse <$> results).*1.
Proof.
  intros Hd. rewrite <-(zip_stamp results dates Hd).
  apply Forall2_length in Hd. by rewrite fst_zip by lia.
Qed.

Lemma stamp_dated (results : list item) :
  Forall (λ x, ∃ d, acquired_date parse x = inr d) results →
  Forall2 (λ x d, acquired_date parse x = inr d) results
    (stamp parse <$> results).*1.
Proof.
  induction 1 as [|x l [d Hd] _ IH]; [constructor|].
  rewrite !fmap_cons. constructor; [|done]. unfold stamp. by rewrite Hd.
Qed.

(** X10.  When the items that contain the AOI carry pairwise different
    dates, the order of the response does not matter: [search] returns the
    same list on every rearrangement of it. *)
Theorem search_order_irrelevant aoi a (response response' out : list item) dates :
  shape aoi = Some a →
  search parse aoi response = inr out →
  Forall2 (λ x d, acquired_date parse x = inr d)
    (filter (λ x, kept a x = true) response) dates →
  NoDup (ticks <$> dates) →
  response' ≡ₚ response →
  search parse aoi response' = inr out.
Proof.
  intros Ha (a' & dates0 & Ha' & Hfp & Hdates0 & Huni & ->)%search_inr
    Hdates Hnodup Hperm.
  assert (a' = a) as -> by congruence.
  set (results := filter (λ x, kept a x = true) response) in *.
  set (results' := filter (λ x : item, kept a x = true) response').
  assert (results' ≡ₚ results) as Hres by (unfold results', results; by rewrite Hperm).
  rewrite (dates_stamp _ _ Hdates0) in Huni.
  rewrite (dates_stamp _ _ Hdates) in Hnodup.
  assert (Forall2 (λ x d, acquired_date parse x = inr d) results'
            (stamp parse <$> results').*1) as Hdates'.
  { apply stamp_dated, Forall_forall. intros x Hx. rewrite Hres in Hx.
    destruct (Forall2_elem_of_l _ _ _ x Hdates Hx) as (d & _ & Hd). eauto. }
  apply search_inr. exists a, (stamp parse <$> results').*1. fold results'.
  split; [done|]. split; [by rewrite Hperm|]. split; [done|]. split.
  { eapply uniform_perm; [|exact Huni]. by rewrite Hres. }
  f_equal. unfold by_date.
  rewrite (zip_stamp _ _ Hdates0), (zip_stamp _ _ Hdates').
  apply (StronglySorted_unique_strong (λ p q, (ticks p.1 ≤ ticks q.1)%Z));
    [|apply sorted_by_ascending..|by rewrite !sorted_by_perm, Hres].
  intros p q Hp Hq Hpq Hqp.
  rewrite sorted_by_perm in Hp, Hq. rewrite Hres in Hq.
  apply (NoDup_fmap_eq (λ p, ticks p.1) (stamp parse <$> results)); [|done..|lia].
  by rewrite <-list_fmap_compose in Hnodup.
Qed.

End order_of_the_response.

(** * Part IV: the request and the command line *)

(** X11.  What the argument checks let through: a geometry file with no
    coordinate that counts (each absent or zero), or no geometry file and
    both coordinates present and non-zero; the AOI then comes from the file,
    or from the center with the width and height given.  A geometry file
    with a coordinate that counts is the one usage error, no geometry file
    with a coordinate absent or zero the other. *)
Theorem check_args_decides {geojson : Type} (a : args geojson) :
  (check_args a = inl MutuallyExclusive ↔
   is_Some (geom a) ∧ (truthy (lat a) = true ∨ truthy (lon a) = true)) ∧
  (check_args a = inl MustBeDefined ↔
   geom a = None ∧ (truthy (lat a) = false ∨ truthy (lon a) = false)) ∧
  (∀ source, check_args a = inr source ↔
     (∃ g, geom a = Some g ∧ truthy (lat a) = false ∧ truthy (lon a) = false ∧
           source = FromFile g) ∨
     (∃ la lo, geom a = None ∧ lat a = Some la ∧ lon a = Some lo ∧
               ¬ (la == 0)%Q ∧ ¬ (lo == 0)%Q ∧
               source = FromCenter (Some la) (Some lo) (width a) (height a))).
Proof.
  assert (∀ v, truthy v = true ↔ ∃ q, v = Some q ∧ ¬ (q == 0)%Q) as Htruthy.
  { intros [q|]; simpl.
    - rewrite negb_true_iff, <-not_true_iff_false, Qeq_bool_iff.
      split; [eauto|]. by intros (? & [= <-] & ?).
    - split; [done|]. by intros (? & ? & _). }
  pose proof (Htruthy (lat a)) as Hlat. pose proof (Htruthy (lon a)) as Hlon.
  unfold check_args.
  destruct (geom a) as [g|]; simpl;
    destruct (truthy (lat a)), (truthy (lon a)); simpl;
    (split; [|split; [|intros source]]); split.
  all: try (intros [=]; done).
  all: try (intros [[? [=]] _]; done).
  all: try (intros [_ [[=]|[=]]]; done).
  all: try (intros [[=] _]; done).
  all: try (intros _; split; [by eexists|auto]; done).
  all: try (intros _; split; auto; done).
  all: try (intros [(g0 & Hg & Ht1 & Ht2 & Hs)
                   |(la & lo & Hg & Hla & Hlo & Hnla & Hnlo & Hs)];
            simplify_eq; try done;
            first [ by rewrite Hla, Hlo
                  | assert (false = true) by (apply Hlat; eauto); done
                  | assert (false = true) by (apply Hlon; eauto); done ]).
  - intros [= <-]. left. by exists g.
  - intros [= <-]. right.
    destruct (proj1 Hlat eq_refl) as (la & Hla & ?).
    destruct (proj1 Hlon eq_refl) as (lo & Hlo & ?).
    exists la, lo. by rewrite Hla, Hlo.
Qed.

(** X12.  The request carries the item types as given and a query that is
    the conjunction of the AOI filter, the date filter on "acquired" and, when
    "PSScene3Band" or "PSScene4Band" is among the item types and only then,
    the filter of the standard quality category; the query does not change
    when the item types are listed in another order or more than once. *)
Theorem request_quality_filter {geojson : Type} (aoi : geojson)
    (start_date end_date : datetime) (item_types : list string) :
  requested (build_request aoi start_date end_date item_types) = item_types ∧
  (∃ more,
     query (build_request aoi start_date end_date item_types)
     = and_filter (geom_filter aoi
                   :: date_range "acquired" start_date end_date :: more) ∧
     (more = [string_filter "quality_category" ["standard"]] ∧
        ("PSScene3Band" ∈ item_types ∨ "PSScene4Band" ∈ item_types) ∨
      more = [] ∧ ("PSScene3Band" ∉ item_types) ∧ ("PSScene4Band" ∉ item_types))) ∧
  (∀ item_types', (∀ t, t ∈ item_types' ↔ t ∈ item_types) →
     query (build_request aoi start_date end_date item_types')
     = query (build_request aoi start_date end_date item_types)).
Proof.
  split; [done|]. split.
  - unfold build_request. simpl.
    destruct (decide ("PSScene3Band" ∈ item_types)) as [H3|H3];
      [rewrite (bool_decide_eq_true_2 _ H3)|rewrite (bool_decide_eq_false_2 _ H3)];
      simpl.
    { eexists. split; [done|]. left. auto. }
    destruct (decide ("PSScene4Band" ∈ item_types)) as [H4|H4];
      [rewrite (bool_decide_eq_true_2 _ H4)|rewrite (bool_decide_eq_false_2 _ H4)];
      simpl.
    { eexists. split; [done|]. left. auto. }
    eexists. split; [done|]. right. auto.
  - intros item_types' Hsame. unfold build_request. simpl.
    by rewrite !(bool_decide_ext _ _ (Hsame _)).
Qed.

Section program_facts.
Context {geojson G : Type} `{!Shapely geojson G} `{!EqDecision geojson}.
Context {payload : Type} `{!EqDecision payload}.
Context (parse : string → option datetime).
Context {api_error : Type}.
Context (quick_search : request geojson → api_error + list (item geojson payload)).
Context (geojson_geometry_object : option Q → option Q → Z → Z → geojson).

#[local] Abbreviation run := (main parse quick_search geojson_geometry_object).

(** X13.  A run without the key prints the hint and exits with status 1, and
    a run whose arguments are rejected prints the usage and exits with
    status 2: neither sends a request.  A request is sent only with the key
    there and the arguments accepted, it is the one request of the AOI the
    arguments give and of the default dates, and what is printed after it
    is what [search] makes of the response to that very request.  When the
    default dates raise (line 52), the run ends on that exception with no
    request sent. *)
Theorem main_requests_after_checks (environ : gmap string string)
    (now : datetime) (a : namespace) :
  (environ !! "PL_API_KEY" = None → run environ now a = ([KeyMissing], Exit 1)) ∧
  (∀ e, is_Some (environ !! "PL_API_KEY") → check_args (coordinates a) = inl e →
        run environ now a = ([Usage e], Exit 2)) ∧
  (∀ r, Request r ∈ (run environ now a).1 →
        is_Some (environ !! "PL_API_KEY") ∧
        ∃ source dates,
          check_args (coordinates a) = inr source ∧
          default_dates now (start_date a) (end_date a) = inr dates ∧
          r = build_request (aoi_of geojson_geometry_object source)
                dates.1 dates.2 (item_types a)) ∧
  (∀ results, Output results ∈ (run environ now a).1 →
        ∃ r response source,
          (run environ now a) = ([Request r; Output results], Done) ∧
          check_args (coordinates a) = inr source ∧
          quick_search r = inr response ∧
          search parse (aoi_of geojson_geometry_object source) response
          = inr results) ∧
  (∀ source e, is_Some (environ !! "PL_API_KEY") →
        check_args (coordinates a) = inr source →
        default_dates now (start_date a) (end_date a) = inl e →
        run environ now a = ([], Uncaught (inr e))).
Proof.
  unfold main, search_with_client.
  destruct (environ !! "PL_API_KEY") as [key|] eqn:Hkey.
  - destruct (check_args (coordinates a)) as [e|source] eqn:Hargs.
    + split; [done|]. split; [by intros e' _ [= <-]|]. split; [|split].
      * by intros r' [[=]|?%elem_of_nil]%elem_of_cons.
      * by intros out [[=]|?%elem_of_nil]%elem_of_cons.
      * by intros source e' _ [=].
    + destruct (default_dates now (start_date a) (end_date a))
        as [e|dates] eqn:Hdates.
      { cbn [fst snd app]. split; [done|]. split; [done|]. split; [|split].
        - by intros r' ?%elem_of_nil.
        - by intros out ?%elem_of_nil.
        - by intros source' e' _ _ [= <-]. }
      cbv zeta.
      set (r0 := build_request (aoi_of geojson_geometry_object source)
                   dates.1 dates.2 (item_types a)).
      cbn [fst snd].
      assert (∀ r1 l, (∀ r', Request (payload:=payload) r' ∉ l) →
                Request r1 ∈ Request r0 :: l →
                is_Some (Some key) ∧
                ∃ source' dates',
                  @inr usage_error _ source = inr source' ∧
                  @inr exn _ dates = inr dates' ∧
                  r1 = build_request (aoi_of geojson_geometry_object source')
                        dates'.1 dates'.2 (item_types a)) as Hreq.
      { intros r1 l Hl [[= ->]|Hin]%elem_of_cons; [|by apply Hl in Hin].
        split; [by eexists|]. by exists source, dates. }
      destruct (quick_search r0) as [e|response] eqn:Hq; cbn [fst snd app];
        [|destruct (search parse (aoi_of geojson_geometry_object source) response)
            as [e|results] eqn:Hs; cbn [fst snd app]];
        (split; [done|]); (split; [done|]);
        (split; [|split; [|by intros ? ? _ _ [=]]]).
      all: try (intros r1; apply Hreq; intros r' Hr';
                repeat (apply elem_of_cons in Hr' as [[=]|Hr']);
                by apply elem_of_nil in Hr').
      all: try (intros out [[=]|?%elem_of_nil]%elem_of_cons; done).
      intros out [[=]|[[= <-]|?%elem_of_nil]%elem_of_cons]%elem_of_cons; [|done].
      by exists r0, response, source.
  - split; [done|]. split; [by intros e [? [=]]|]. split; [|split].
    + by intros r' [[=]|?%elem_of_nil]%elem_of_cons.
    + by intros out [[=]|?%elem_of_nil]%elem_of_cons.
    + by intros source e [? [=]].
Qed.

End program_facts.

Section more_examples.
Import Rectilinear Fixture Setting.

Lemma first_failure_wins_witness :
  search Calendar.parse Nothing [at_T] = inl ShapeError ∧
  search Calendar.parse aoi [at_T; shapeless; near_undated]
  = inl (KeyError "geometry").
Proof.
  split.
  - apply (proj1 (first_failure_wins Calendar.parse Nothing [at_T])). reflexivity.
  - apply (proj2 (first_failure_wins Calendar.parse aoi
                    [at_T; shapeless; near_undated])
             (Box 1 1 2 2) [at_T] shapeless [near_undated]); try reflexivity.
    repeat constructor. by eexists.
Defined.

Lemma output_contains_aoi_witness :
  (∃ g, footprint at_400 = inr g ∧ contains g (Box 1 1 2 2) = true) ∧
  (∃ d, acquired_date Calendar.parse at_400 = inr d).
Proof.
  apply (output_contains_aoi Calendar.parse aoi (Box 1 1 2 2)
           [at_400; far_undated; at_T; at_120] [at_400]);
    [reflexivity|reflexivity|left].
Defined.

Lemma output_gaps_witness :
  ∃ dates,
    Forall2 (λ x d, acquired_date Calendar.parse x = inr d) [at_T; at_600] dates ∧
    ∀ i j d d', i < j → dates !! i = Some d → dates !! j = Some d' →
                (timedelta_seconds 300 ≤ ticks d' - ticks d)%Z.
Proof.
  apply (output_gaps Calendar.parse aoi [at_600; at_T] [at_T; at_600]).
  reflexivity.
Defined.

Lemma search_of_containing_witness :
  search Calendar.parse aoi [at_400; far_garbled; at_T]
  = search Calendar.parse aoi
      (filter (λ x, kept (Box 1 1 2 2) x = true) [at_400; far_garbled; at_T]).
Proof.
  apply (search_of_containing Calendar.parse aoi (Box 1 1 2 2)); [reflexivity|].
  repeat constructor; by eexists.
Defined.

Lemma sort_by_date_aligned_witness :
  [at_T; at_600] ≡ₚ [at_600; at_T] ∧
  Forall2 (λ x d, acquired_date Calendar.parse x = inr d) [at_T; at_600] [dT; d600] ∧
  ∀ i d d', [dT; d600] !! i = Some d → [dT; d600] !! S i = Some d' →
            (ticks d ≤ ticks d')%Z.
Proof.
  apply (proj1 (sort_by_date_aligned Calendar.parse [at_600; at_T])). reflexivity.
Defined.

Lemma nothing_removed_iff_witness :
  remove_duplicates [dT; d600] [at_T; at_600] = inr [at_T; at_600] ↔
  ∀ i d d', [dT; d600] !! i = Some d → [dT; d600] !! S i = Some d' →
            (timedelta_seconds 300 ≤ ticks d' - ticks d)%Z.
Proof.
  apply (nothing_removed_iff [dT; d600] [at_T; at_600]); [reflexivity|].
  apply comparable_uniform. reflexivity.
Defined.

Lemma distinct_contents_by_position_witness :
  (∀ i r, [at_T; at_120; at_600] !! i = Some r →
     (r ∈ [at_120; at_600] ↔
      ∀ d d', [dT; d120; d600] !! i = Some d → [dT; d120; d600] !! S i = Some d' →
              (timedelta_seconds 300 ≤ ticks d' - ticks d)%Z)) ∧
  (∀ r, last [at_T; at_120; at_600] = Some r → r ∈ [at_120; at_600]).
Proof.
  apply (distinct_contents_by_position [dT; d120; d600] [at_T; at_120; at_600]);
    [reflexivity| |reflexivity].
  apply (bool_decide_eq_true_1 (NoDup _)). vm_compute. reflexivity.
Defined.

Lemma chain_keeps_the_last_witness :
  remove_duplicates [dT; d120; d400] [at_T; at_120; at_400] = inr [at_400].
Proof.
  apply (chain_keeps_the_last [dT; d120; d400] [at_T; at_120; at_400] at_400);
    try reflexivity.
  - apply comparable_uniform. reflexivity.
  - apply (bool_decide_eq_true_1 (NoDup _)). vm_compute. reflexivity.
  - intros [|[|[|i]]] d d' Hd Hd'; simplify_eq/=; vm_compute; reflexivity.
Defined.

Lemma search_order_irrelevant_witness :
  search Calendar.parse aoi [at_600; at_T] = inr [at_T; at_600].
Proof.
  apply (search_order_irrelevant Calendar.parse aoi (Box 1 1 2 2)
           [at_T; at_600] [at_600; at_T] [at_T; at_600] [dT; d600]);
    try reflexivity.
  - repeat constructor.
  - apply (bool_decide_eq_true_1 (NoDup _)). vm_compute. reflexivity.
  - apply perm_swap.
Defined.

Lemma request_quality_filter_witness :
  query (build_request aoi dT d600 ["REScene"; "PSScene4Band"; "REScene"])
  = query (build_request aoi dT d600 ["PSScene4Band"; "REScene"]).
Proof.
  apply (proj2 (proj2 (request_quality_filter aoi dT d600
                         ["PSScene4Band"; "REScene"]))).
  intros t. rewrite !elem_of_cons, !elem_of_nil. tauto.
Defined.

Lemma main_requests_after_checks_witness :
  main Calendar.parse catalog geometry_object ∅ now from_file
  = ([KeyMissing], Exit 1) ∧
  main Calendar.parse catalog geometry_object with_key now from_equator
  = ([Usage MustBeDefined], Exit 2).
Proof.
  split.
  - apply (proj1 (main_requests_after_checks Calendar.parse catalog
                    geometry_object ∅ now from_file)). reflexivity.
  - apply (proj1 (proj2 (main_requests_after_checks Calendar.parse catalog
                           geometry_object with_key now from_equator))).
    + by eexists.
    + reflexivity.
Defined.

(** Runs of the script: with the key and a geometry file, the one request
    and the refined answer; with an end date in year 1 and no start date,
    the exception of line 52 and no request; with the catalog down, the
    request and the exception of the client. *)
Example run_prints :
  main Calendar.parse catalog geometry_object with_key now from_file
  = ([Request (build_request aoi
                 (DateTime (ticks now - timedelta_days 365) false) now
                 ["PSScene3Band"]);
      Output [at_400]], Done).
Proof. vm_compute. reflexivity. Qed.

Example run_before_year_one :
  main Calendar.parse catalog geometry_object with_key now until_year_one
  = ([], Uncaught (inr OverflowError)).
Proof. vm_compute. reflexivity. Qed.

Example run_catalog_down :
  (main Calendar.parse down geometry_object with_key now from_file).2
  = Uncaught (inl "503").
Proof. vm_compute. reflexivity. Qed.

End more_examples.

Section latest.
Context {geojson G : Type} `{!Shapely geojson G} `{!EqDecision geojson}.
Context {payload : Type} `{!EqDecision payload}.
Context (parse : string → option datetime).

#[local] Abbreviation item := (item geojson payload).

(** X14.  When the items that contain the AOI are there and no two of them
    have the same content, the output is not empty: it holds an item whose
    date no item that contains the AOI exceeds, the latest scene. *)
Theorem latest_scene_survives aoi a (response out : list item) :
  shape aoi = Some a →
  search parse aoi response = inr out →
  NoDup (dict <$> filter (λ x, kept a x = true) response) →
  filter (λ x, kept a x = true) response ≠ [] →
  ∃ r d,
    r ∈ out ∧ acquired_date parse r = inr d ∧
    ∀ x d', x ∈ response → kept a x = true →
            acquired_date parse x = inr d' → (ticks d' ≤ ticks d)%Z.
Proof.
  intros Ha (a' & dates & Ha' & _ & Hdates & _ & ->)%search_inr Hnodup Hsome.
  assert (a' = a) as -> by congruence.
  set (results := filter (λ x, kept a x = true) response) in *.
  set (pairs := by_date dates results).
  pose proof (Forall2_length _ _ _ Hdates) as Hlen.
  assert (pairs ≡ₚ stamp parse <$> results) as Hperm.
  { unfold pairs. by rewrite by_date_perm, (zip_stamp parse results dates). }
  assert (pairs.*2 ≡ₚ results) as Hsnd.
  { unfold pairs. by rewrite by_date_perm, snd_zip by lia. }
  assert (Forall (λ p, acquired_date parse p.2 = inr p.1) pairs) as Hpairs.
  { unfold pairs. rewrite by_date_perm. by apply zip_dated. }
  destruct (last pairs) as [[d r]|] eqn:Hlast.
  2: { apply last_None in Hlast. rewrite Hlast in Hsnd.
       by apply Permutation_nil in Hsnd. }
  rewrite last_lookup in Hlast.
  exists r, d. split; [|split].
  - unfold survivors.
    assert (marked pairs = marked (zip pairs.*1 pairs.*2)) as ->
      by (by rewrite zip_fst_snd).
    refine (proj2 (survives_by_position pairs.*1 pairs.*2
                     (pred (length pairs)) r _ _ _) _).
    + by rewrite !length_fmap.
    + by rewrite Hsnd.
    + by rewrite list_lookup_fmap, Hlast.
    + intros d1 d2 _ Hd2%lookup_lt_Some. rewrite length_fmap in Hd2.
      apply lookup_lt_Some in Hlast. lia.
  - rewrite Forall_forall in Hpairs.
    apply (Hpairs (d, r)). by eapply list_elem_of_lookup_2.
  - intros x d' Hx Hk Hd'.
    assert ((d', x) ∈ pairs) as [j Hj]%list_elem_of_lookup_1.
    { rewrite Hperm. apply list_elem_of_fmap. exists x. split.
      - unfold stamp. by rewrite Hd'.
      - by apply list_elem_of_filter. }
    apply (ascending_lookup_le (λ p, ticks p.1) pairs j (pred (length pairs))
             (d', x) (d, r)); [apply by_date_ascending| |done..].
    apply lookup_lt_Some in Hj. lia.
Qed.

End latest.

Section latest_example.
Import Rectilinear Fixture.

Lemma latest_scene_survives_witness :
  ∃ r d,
    r ∈ [at_400] ∧ acquired_date Calendar.parse r = inr d ∧
    ∀ x d', x ∈ [at_400; far_undated; at_T; at_120] →
            kept (Box 1 1 2 2) x = true →
            acquired_date Calendar.parse x = inr d' → (ticks d' ≤ ticks d)%Z.
Proof.
  apply (latest_scene_survives Calendar.parse aoi (Box 1 1 2 2)
           [at_400; far_undated; at_T; at_120] [at_400]);
    [reflexivity|reflexivity| |discriminate].
  apply (bool_decide_eq_true_1 (NoDup _)). vm_compute. reflexivity.
Defined.

End latest_example.
